(** * Outfit recommendation pipeline: a shallow embedding and its properties

    The development follows [backend/app/ai/color_analysis.py]
    (class [ColorAnalyzer]) and [backend/app/ai/recommendations.py]
    (class [OutfitRecommendationEngine]).

    - Python [float] is IEEE binary64; scores are primitive floats, so a sum
      such as [0.6 + 0.1 + 0.1] is the value the interpreter computes.
    - Python [int] is [Z]; [str] is [string]; [None] and absent dictionary
      keys are [option].
    - Code that may raise runs in the error monad [res]; every
      [try ... except] of the source is a [match] on it. *)

From Stdlib Require Import PrimFloat ZArith.
From Stdlib Require Uint63 FloatAxioms.
From stdpp Require Import base option list strings gmap sorting.

Set Warnings "-inexact-float,-clear-no-such-hyp".
Set Default Proof Using "Type".

Open Scope Z_scope.

(** ** Python values and exceptions *)

Module Py.

(** A computation that either returns or raises an [Exception]. *)
Inductive res (A : Type) : Type :=
| Ok (a : A)
| Raise.
Global Arguments Ok {A} a.
Global Arguments Raise {A}.

Global Instance res_ret : MRet res := λ A a, Ok a.
Global Instance res_bind : MBind res := λ A B k m,
  match m with
  | Ok a => k a
  | Raise => Raise
  end.

(** [str.lower] on the ASCII letters. *)
Definition lower_ascii (a : Ascii.ascii) : Ascii.ascii :=
  let n := Ascii.N_of_ascii a in
  if ((65 <=? n) && (n <=? 90))%N then Ascii.ascii_of_N (n + 32) else a.

Fixpoint lower (s : string) : string :=
  match s with
  | EmptyString => EmptyString
  | String a s' => String (lower_ascii a) (lower s')
  end.

(** [str(x)] for an attribute that holds a string or [None]. *)
Definition str (o : option string) : string :=
  match o with
  | Some s => s
  | None => "None"
  end.

(** [x in xs] for a list of strings. *)
Definition in_list (x : string) (xs : list string) : bool :=
  bool_decide (x ∈ xs).

(** [min(a, b)] on floats: [b] is chosen only when [b < a]. *)
Definition fmin (a b : float) : float :=
  if PrimFloat.ltb b a then b else a.

(** The closed unit interval, as the comparisons [0 <= x <= 1]. *)
Definition in_unit (x : float) : Prop :=
  PrimFloat.leb 0 x = true ∧ PrimFloat.leb x 1 = true.

End Py.

(** ** [ColorAnalyzer] *)

Module ColorAnalyzer.
Import Py.

(** [self.color_wheel], in insertion order: name, (hue, saturation, value). *)
Definition color_wheel_items : list (string * (Z * Z * Z)) :=
  [ ("red",    (0, 100, 100));
    ("orange", (30, 100, 100));
    ("yellow", (60, 100, 100));
    ("green",  (120, 100, 100));
    ("blue",   (240, 100, 100));
    ("purple", (270, 100, 100));
    ("pink",   (330, 100, 100));
    ("brown",  (30, 100, 30));
    ("black",  (0, 0, 0));
    ("white",  (0, 0, 100));
    ("gray",   (0, 0, 50));
    ("navy",   (240, 100, 25));
    ("beige",  (30, 30, 80)) ].

Definition color_wheel : gmap string (Z * Z * Z) :=
  list_to_map color_wheel_items.

(** [self.color_wheel[color][0]]; [None] stands for the [KeyError]. *)
Definition hue (color : string) : option Z :=
  (λ hsv, hsv.1.1) <$> color_wheel !! color.

Definition _calculate_color_pair_harmony (color1 color2 : string)
  : option float :=
  hue1 ← hue color1;
  hue2 ← hue color2;
  let hue_diff := Z.abs (hue1 - hue2) in
  let hue_diff := if 180 <? hue_diff then 360 - hue_diff else hue_diff in
  Some (if Z.abs (hue_diff - 180) <? 30 then 0.9%float
        else if hue_diff <? 30 then 0.8%float
        else if Z.abs (hue_diff - 120) <? 30 then 0.7%float
        else 0.5%float).

(** The circular distance between two hues, never above 180. *)
Definition circular_distance (hue1 hue2 : Z) : Z :=
  Z.min (Z.abs (hue1 - hue2)) (360 - Z.abs (hue1 - hue2)).

(** The score table as the specification words it: closed intervals,
    tried in the order they are listed. *)
Definition spec_pair_score (d : Z) : float :=
  if (150 <=? d) && (d <=? 180) then 0.9%float
  else if d <? 30 then 0.8%float
  else if (90 <=? d) && (d <=? 150) then 0.7%float
  else 0.5%float.

(** The score table the code implements: the two bands are open at 150
    and at 90. *)
Definition code_pair_score (d : Z) : float :=
  if (150 <? d) && (d <=? 180) then 0.9%float
  else if d <? 30 then 0.8%float
  else if (90 <? d) && (d <? 150) then 0.7%float
  else 0.5%float.

(** *** Matching colors *)

(** The loop shared by the four harmony rules: the names of the wheel,
    in its order, whose hue passes the test. *)
Definition wheel_names_where (test : string → Z → bool) : list string :=
  fst <$> filter (λ entry, test entry.1 entry.2.1.1 = true) color_wheel_items.

Definition _complementary_colors (base_color : string)
  : option (list string) :=
  base_hue ← hue base_color;
  let complement_hue := (base_hue + 180) `mod` 360 in
  Some (wheel_names_where
          (λ color_name hue, Z.abs (hue - complement_hue) <? 30)).

Definition _analogous_colors (base_color : string) : option (list string) :=
  base_hue ← hue base_color;
  Some (wheel_names_where
          (λ color_name hue,
             (Z.abs (hue - base_hue) <? 60)
             && bool_decide (color_name ≠ base_color))).

Definition _triadic_colors (base_color : string) : option (list string) :=
  base_hue ← hue base_color;
  let triadic_hues := [(base_hue + 120) `mod` 360; (base_hue + 240) `mod` 360] in
  Some (wheel_names_where
          (λ color_name hue,
             existsb (λ t_hue, Z.abs (hue - t_hue) <? 30) triadic_hues)).

Definition _monochromatic_colors (base_color : string)
  : option (list string) :=
  base_hue ← hue base_color;
  Some (wheel_names_where
          (λ color_name hue, Z.abs (hue - base_hue) <? 15)).

(** [self.color_harmony_rules] *)
Definition color_harmony_rules
  : gmap string (string → option (list string)) :=
  list_to_map
    [ ("complementary", _complementary_colors);
      ("analogous", _analogous_colors);
      ("triadic", _triadic_colors);
      ("monochromatic", _monochromatic_colors) ].

(** [None] stands for a [KeyError] of the rule that is called. *)
Definition find_matching_colors (base_color harmony_type : string)
  : option (list string) :=
  match color_wheel !! base_color with
  | None => Some []
  | Some _ =>
      match color_harmony_rules !! harmony_type with
      | Some rule => rule base_color
      | None => Some []
      end
  end.

(** *** Harmony of a list of colors *)

(** [float(n)] for the number of comparisons. *)
Definition float_of_count (n : Z) : float :=
  PrimFloat.of_uint63 (Uint63.of_Z n).

(** The body of the inner loop of [_calculate_color_harmony] once
    [colors[i]] and [colors[j]] are read; the state is
    [(harmony_score, comparisons)], and [None] stands for an exception. *)
Definition harmony_pair (color_i color_j : string) (state : float * Z)
  : option (float * Z) :=
  if bool_decide (is_Some (color_wheel !! color_i))
     && bool_decide (is_Some (color_wheel !! color_j))
  then
    score ← _calculate_color_pair_harmony color_i color_j;
    Some ((state.1 + score)%float, state.2 + 1)
  else Some state.

Definition harmony_step (colors : list string) (i j : nat)
    (state : float * Z) : option (float * Z) :=
  color_i ← colors !! i;
  color_j ← colors !! j;
  harmony_pair color_i color_j state.

Definition harmony_loops (colors : list string) : option (float * Z) :=
  foldl (λ state i,
           foldl (λ state j, state ≫= harmony_step colors i j)
             state
             (seq (i + 1) (length colors - (i + 1))))
    (Some (0.0%float, 0))
    (seq 0 (length colors)).

Definition _calculate_color_harmony (colors : list string) : option float :=
  if bool_decide (length colors < 2)%nat then Some 1.0%float
  else
    '(harmony_score, comparisons) ← harmony_loops colors;
    Some (if 0 <? comparisons
          then (harmony_score / float_of_count comparisons)%float
          else 0.0%float).

(** The same two loops by recursion on the list: each color against the
    ones after it. *)
Definition harmony_against (color : string) (later : list string)
    (state : option (float * Z)) : option (float * Z) :=
  foldl (λ state other, state ≫= harmony_pair color other) state later.

Fixpoint harmony_pairs (colors : list string) (state : option (float * Z))
  : option (float * Z) :=
  match colors with
  | [] => state
  | color :: later => harmony_pairs later (harmony_against color later state)
  end.

(** The color is a key of the wheel. *)
Definition known (color : string) : bool :=
  bool_decide (is_Some (color_wheel !! color)).

(** *** Scheme and temperature *)

Definition _identify_color_scheme (colors : list string) : string :=
  if bool_decide (length colors < 2)%nat then "monochromatic"
  else
    let unique_colors := size (list_to_set colors : gset string) in
    if bool_decide (unique_colors = 1%nat) then "monochromatic"
    else if bool_decide (unique_colors = 2%nat) then "complementary"
    else if bool_decide (unique_colors = 3%nat) then "triadic"
    else "complex".

Definition warm_colors : list string :=
  ["red"; "orange"; "yellow"; "pink"; "brown"].

Definition cool_colors : list string :=
  ["blue"; "green"; "purple"; "gray"].

Definition _calculate_color_temperature (colors : list string) : string :=
  let warm_count :=
    Z.of_nat (length (filter (λ color, in_list color warm_colors = true)
                        colors)) in
  let cool_count :=
    Z.of_nat (length (filter (λ color, in_list color cool_colors = true)
                        colors)) in
  if cool_count <? warm_count then "warm"
  else if warm_count <? cool_count then "cool"
  else "neutral".

End ColorAnalyzer.

(** ** [OutfitRecommendationEngine]: data *)

Module Engine.
Import Py.

(** A JSON value found under ["formality_level"]: an integer, or
    something ([null], a string) on which [>=] and [-] raise
    [TypeError]. *)
Inductive pyval : Type :=
| PInt (n : Z)
| PNone
| PStr (s : string).

(** What [item.metadata] holds: [NoMetadata] when the attribute is
    missing, falsy or not a [dict]; otherwise the dictionary's
    ["formality_level"] entry, if it has one. *)
Inductive metadata_attr : Type :=
| NoMetadata
| MetaDict (formality_level : option pyval).

(** The attributes of a clothing item that the engine reads;
    [item_id] is its [str] rendering. *)
Record ClothingItem : Type := {
  item_id : string;
  category : option string;
  color : option string;
  image_path : option string;
  metadata : metadata_attr
}.

(** Truthiness of an optional string: [None] and [''] are falsy. *)
Definition truthy (o : option string) : bool :=
  match o with
  | Some s => bool_decide (s ≠ "")
  | None => false
  end.

(** [x and x.lower() in xs] *)
Definition lower_in (x : option string) (xs : list string) : bool :=
  match x with
  | Some s => truthy x && in_list (lower s) xs
  | None => false
  end.

(** [formality = 2], overwritten by the metadata entry when present. *)
Definition read_formality (item : ClothingItem) : pyval :=
  match metadata item with
  | MetaDict (Some v) => v
  | _ => PInt 2
  end.

(** [formality >= n] *)
Definition py_ge (v : pyval) (n : Z) : res bool :=
  match v with
  | PInt z => Ok (n <=? z)
  | _ => Raise
  end.

(** [abs(formality - n)] *)
Definition py_abs_sub (v : pyval) (n : Z) : res Z :=
  match v with
  | PInt z => Ok (Z.abs (z - n))
  | _ => Raise
  end.

(** *** Configuration tables of [__init__] *)

Record mood_style : Type := {
  mood_colors : list string;
  mood_formality : Z
}.

Definition mood_style_mapping : gmap string mood_style :=
  list_to_map
    [ ("confident",    {| mood_colors := ["red"; "black"; "navy"];     mood_formality := 3 |});
      ("relaxed",      {| mood_colors := ["blue"; "green"; "gray"];    mood_formality := 1 |});
      ("creative",     {| mood_colors := ["purple"; "orange"; "yellow"]; mood_formality := 2 |});
      ("professional", {| mood_colors := ["black"; "navy"; "gray"];    mood_formality := 4 |});
      ("romantic",     {| mood_colors := ["pink"; "red"; "white"];     mood_formality := 2 |});
      ("adventurous",  {| mood_colors := ["green"; "brown"; "orange"]; mood_formality := 1 |}) ].

Record occasion_requirement : Type := {
  formality_min : Z;
  occasion_colors : list string
}.

Definition occasion_requirements : gmap string occasion_requirement :=
  list_to_map
    [ ("work",    {| formality_min := 3; occasion_colors := ["navy"; "black"; "gray"; "white"] |});
      ("casual",  {| formality_min := 1; occasion_colors := ["blue"; "green"; "red"; "yellow"] |});
      ("date",    {| formality_min := 2; occasion_colors := ["black"; "red"; "navy"; "white"] |});
      ("party",   {| formality_min := 3; occasion_colors := ["black"; "red"; "gold"; "silver"] |});
      ("workout", {| formality_min := 1; occasion_colors := ["black"; "gray"; "blue"; "green"] |});
      ("formal",  {| formality_min := 4; occasion_colors := ["black"; "navy"; "gray"; "white"] |}) ].

(** One entry of [weather_adjustments]; each key may be absent. *)
Record adjustment : Type := {
  avoid_categories : option (list string);
  prefer : option (list string);
  prefer_categories : option (list string);
  avoid : option (list string);
  neutral : option bool
}.

Definition weather_adjustments : gmap string adjustment :=
  list_to_map
    [ ("hot",   {| avoid_categories := Some ["coat"; "sweater"];
                   prefer := Some ["shorts"; "tank_top"];
                   prefer_categories := None; avoid := None; neutral := None |});
      ("cold",  {| avoid_categories := None; prefer := None;
                   prefer_categories := Some ["coat"; "sweater"];
                   avoid := Some ["shorts"; "tank_top"]; neutral := None |});
      ("rainy", {| avoid_categories := None; prefer := None;
                   prefer_categories := Some ["jacket"; "boots"];
                   avoid := Some ["white"; "suede"]; neutral := None |});
      ("mild",  {| avoid_categories := None; prefer := None;
                   prefer_categories := None; avoid := None;
                   neutral := Some true |}) ].

Definition essential_categories : gmap string (list string) :=
  list_to_map
    [ ("tops",      ["shirt"; "blouse"; "t-shirt"; "tank_top"; "sweater"; "hoodie"; "top"]);
      ("bottoms",   ["pants"; "jeans"; "shorts"; "skirt"; "dress"; "trousers"]);
      ("outerwear", ["jacket"; "coat"; "blazer"; "cardigan"]);
      ("footwear",  ["shoes"; "sneakers"; "boots"; "sandals"; "heels"]) ].

(** ** [OutfitRecommendationEngine]: the candidate filter chain *)

(** The body of the [try] in the loop of [_filter_by_occasion]: does the
    item pass? *)
Definition occasion_test (requirements : occasion_requirement)
    (item : ClothingItem) : res bool :=
  formality_ok ← py_ge (read_formality item) (formality_min requirements);
  if (formality_ok : bool) then Ok true
  else Ok (lower_in (color item) (occasion_colors requirements)).

(** One iteration of that loop; an exception also appends the item. *)
Definition occasion_step (requirements : occasion_requirement)
    (filtered : list ClothingItem) (item : ClothingItem)
  : list ClothingItem :=
  match occasion_test requirements item with
  | Ok true => filtered ++ [item]
  | Ok false => filtered
  | Raise => filtered ++ [item]
  end.

Definition _filter_by_occasion (items : list ClothingItem)
    (occasion : string) : list ClothingItem :=
  match occasion_requirements !! occasion with
  | None => items
  | Some requirements =>
      let filtered := foldl (occasion_step requirements) [] items in
      match filtered with
      | [] => items
      | _ :: _ => filtered
      end
  end.

Definition mood_test (style : mood_style) (item : ClothingItem)
  : res bool :=
  if lower_in (color item) (mood_colors style) then Ok true
  else
    distance ← py_abs_sub (read_formality item) (mood_formality style);
    Ok (distance <=? 1).

Definition mood_step (style : mood_style)
    (filtered : list ClothingItem) (item : ClothingItem)
  : list ClothingItem :=
  match mood_test style item with
  | Ok true => filtered ++ [item]
  | Ok false => filtered
  | Raise => filtered ++ [item]
  end.

Definition _filter_by_mood (items : list ClothingItem) (mood : string)
  : list ClothingItem :=
  match mood_style_mapping !! mood with
  | None => items
  | Some style =>
      let filtered := foldl (mood_step style) [] items in
      match filtered with
      | [] => items
      | _ :: _ => filtered
      end
  end.

(** ['key' in adjustments and x and x.lower() in adjustments['key']] *)
Definition entry_has (entry : option (list string)) (x : option string)
  : bool :=
  match entry with
  | Some xs => lower_in x xs
  | None => false
  end.

(** The item is skipped by one of the two [continue] statements. *)
Definition avoided (adjustments : adjustment) (item : ClothingItem)
  : bool :=
  entry_has (avoid_categories adjustments) (category item)
  || entry_has (avoid adjustments) (color item).

(** The item goes through [filtered.insert(0, item)]. *)
Definition preferred (adjustments : adjustment) (item : ClothingItem)
  : bool :=
  entry_has (prefer_categories adjustments) (category item).

Definition weather_step (adjustments : adjustment)
    (filtered : list ClothingItem) (item : ClothingItem)
  : list ClothingItem :=
  if entry_has (avoid_categories adjustments) (category item) then filtered
  else if entry_has (avoid adjustments) (color item) then filtered
  else if entry_has (prefer_categories adjustments) (category item)
       then item :: filtered
       else filtered ++ [item].

(** [weather] is the ['condition'] entry of the weather dictionary;
    [None] when the dictionary is [None], empty or lacks the entry. *)
Definition weather_condition (weather : option string) : string :=
  match weather with
  | Some c => lower c
  | None => "mild"
  end.

Definition _filter_by_weather (items : list ClothingItem)
    (weather : option string) : list ClothingItem :=
  match weather_adjustments !! weather_condition weather with
  | None => items
  | Some adjustments =>
      match neutral adjustments with
      | Some true => items
      | _ =>
          let filtered := foldl (weather_step adjustments) [] items in
          match filtered with
          | [] => items
          | _ :: _ => filtered
          end
      end
  end.

(** ** The outfit assembler *)

Record Categorized : Type := {
  tops : list ClothingItem;
  bottoms : list ClothingItem;
  outerwear : list ClothingItem;
  footwear : list ClothingItem;
  accessories : list ClothingItem
}.

Definition no_categories : Categorized :=
  {| tops := []; bottoms := []; outerwear := []; footwear := [];
     accessories := [] |}.

Definition categorize_step (categories : Categorized)
    (item : ClothingItem) : Categorized :=
  let category :=
    match category item with
    | Some c => if truthy (Some c) then lower c else "accessories"
    | None => "accessories"
    end in
  if in_list category (essential_categories !!! "tops") then
    {| tops := tops categories ++ [item]; bottoms := bottoms categories;
       outerwear := outerwear categories; footwear := footwear categories;
       accessories := accessories categories |}
  else if in_list category (essential_categories !!! "bottoms") then
    {| tops := tops categories; bottoms := bottoms categories ++ [item];
       outerwear := outerwear categories; footwear := footwear categories;
       accessories := accessories categories |}
  else if in_list category (essential_categories !!! "outerwear") then
    {| tops := tops categories; bottoms := bottoms categories;
       outerwear := outerwear categories ++ [item];
       footwear := footwear categories;
       accessories := accessories categories |}
  else if in_list category (essential_categories !!! "footwear") then
    {| tops := tops categories; bottoms := bottoms categories;
       outerwear := outerwear categories;
       footwear := footwear categories ++ [item];
       accessories := accessories categories |}
  else
    {| tops := tops categories; bottoms := bottoms categories;
       outerwear := outerwear categories; footwear := footwear categories;
       accessories := accessories categories ++ [item] |}.

Definition _categorize_items (items : list ClothingItem) : Categorized :=
  foldl categorize_step no_categories items.

(** [any(getattr(item, 'category', '').lower() == 'dress' for item in
    outfit)]: the attribute exists, so a [None] category reaches
    [.lower()] and raises. *)
Fixpoint any_dress (outfit : list ClothingItem) : res bool :=
  match outfit with
  | [] => Ok false
  | item :: rest =>
      match category item with
      | None => Raise
      | Some c =>
          if bool_decide (lower c = "dress") then Ok true
          else any_dress rest
      end
  end.

Definition dress_up_occasions : list string := ["work"; "formal"; "date"].

Definition _build_complete_outfit (categorized_items : Categorized)
    (mood occasion : string) : res (list ClothingItem) :=
  let outfit := [] in
  let outfit :=
    match tops categorized_items with
    | top :: _ => outfit ++ [top]
    | [] => outfit
    end in
  outfit ←
    match bottoms categorized_items with
    | bottom :: _ =>
        has_dress ← any_dress outfit;
        Ok (if (has_dress : bool) then outfit else outfit ++ [bottom])
    | [] => Ok outfit
    end;
  let outfit :=
    if in_list occasion dress_up_occasions then
      match outerwear categorized_items with
      | outer :: _ => outfit ++ [outer]
      | [] => outfit
      end
    else outfit in
  let outfit :=
    match footwear categorized_items with
    | shoe :: _ => outfit ++ [shoe]
    | [] => outfit
    end in
  let outfit :=
    match accessories categorized_items with
    | accessory :: _ =>
        if bool_decide (length outfit < 4)%nat then outfit ++ [accessory]
        else outfit
    | [] => outfit
    end in
  Ok outfit.

(** ** Scorer and deduplicator *)

(** An item view inside a candidate. [d_item_id] is [None] when the
    dictionary has no ['item_id'] key; the views the engine builds always
    have one. Of ["metadata"] only ["formality_level"] is kept. *)
Record ItemDict : Type := {
  d_item_id : option string;
  d_category : string;
  d_color : string;
  d_image_url : string;
  d_formality_level : pyval
}.

(** A candidate outfit. [items] is [None] when the dictionary has no
    ['items'] key. The keys [outfit_id], [created_at] and
    [style_description] depend on the clock, the random generator and the
    iteration order of a [set]; nothing below reads them and they are
    left out. *)
Record Recommendation : Type := {
  items : option (list ItemDict);
  mood : string;
  occasion : string;
  confidence_score : option float;
  color_harmony : bool;
  weather_appropriate : bool;
  recommendation_method : option string;
  attempt_number : option Z;
  final_score : option float
}.

Definition neutral_colors : list string :=
  ["black"; "white"; "gray"; "grey"; "navy"; "beige"; "brown"].

Definition is_neutral (c : string) : bool :=
  in_list (lower c) neutral_colors.

Definition _colors_coordinate (colors : list string) : bool :=
  match colors with
  | [] => true
  | _ :: _ =>
      let neutral_count := Z.of_nat (length (filter is_neutral colors)) in
      if neutral_count =? Z.of_nat (length colors) then true
      else Z.of_nat (length colors) - neutral_count <=? 1
  end.

Definition _calculate_confidence_score (outfit_items : list ItemDict)
    (mood occasion : string) : float :=
  match outfit_items with
  | [] => 0.0%float
  | _ :: _ =>
      let base_score := 0.6%float in
      let categories : gset string :=
        list_to_set (d_category <$> outfit_items) in
      let base_score :=
        if bool_decide (2 ≤ size categories)%nat
        then (base_score + 0.1)%float else base_score in
      let base_score :=
        if bool_decide (3 ≤ size categories)%nat
        then (base_score + 0.1)%float else base_score in
      let colors := d_color <$> outfit_items in
      let base_score :=
        if _colors_coordinate colors
        then (base_score + 0.1)%float else base_score in
      fmin base_score 1.0
  end.

Definition _assess_color_harmony (outfit_items : list ItemDict) : bool :=
  match outfit_items with
  | [] => true
  | _ :: _ =>
      let colors :=
        (λ item, lower (d_color item))
          <$> filter (λ item, bool_decide (d_color item ≠ "")) outfit_items in
      _colors_coordinate colors
  end.

(** The body of the [try] in [_deduplicate_recommendations]. *)
Definition combo_signature (rec : Recommendation) : res (list string) :=
  match items rec with
  | None => Raise
  | Some its =>
      item_ids ← mapM (λ item,
                    match d_item_id item with
                    | Some i => Ok i
                    | None => Raise
                    end) its;
      Ok (merge_sort String.le item_ids)
  end.

Definition dedup_step
    (state : gset (list string) * list Recommendation)
    (rec : Recommendation) : gset (list string) * list Recommendation :=
  let '(seen_combinations, unique_recs) := state in
  match combo_signature rec with
  | Ok signature =>
      if bool_decide (signature ∉ seen_combinations)
      then ({[signature]} ∪ seen_combinations, unique_recs ++ [rec])
      else (seen_combinations, unique_recs)
  | Raise => (seen_combinations, unique_recs ++ [rec])
  end.

Definition _deduplicate_recommendations
    (recommendations : list Recommendation) : list Recommendation :=
  (foldl dedup_step (∅, []) recommendations).2.

Definition set_final_score (rec : Recommendation) (score : float)
  : Recommendation :=
  {| items := items rec; mood := mood rec; occasion := occasion rec;
     confidence_score := confidence_score rec;
     color_harmony := color_harmony rec;
     weather_appropriate := weather_appropriate rec;
     recommendation_method := recommendation_method rec;
     attempt_number := attempt_number rec;
     final_score := Some score |}.

(** One iteration of the loop of [_score_recommendations].
    [preferred_colors] is the ['preferred_colors'] entry of the user
    preferences, [None] when the preferences are empty or lack it. *)
Definition score_one (preferred_colors : option (list string))
    (rec : Recommendation) : res Recommendation :=
  let base_score := default 0.5%float (confidence_score rec) in
  base_score ←
    match preferred_colors with
    | Some preferred =>
        match items rec with
        | None => Raise
        | Some its =>
            let outfit_colors := (λ item, lower (d_color item)) <$> its in
            if existsb (λ color, in_list color preferred) outfit_colors
            then Ok (base_score + 0.1)%float
            else Ok base_score
        end
    | None => Ok base_score
    end;
  let base_score :=
    if bool_decide (recommendation_method rec = Some "ai_enhanced")
    then (base_score + 0.05)%float else base_score in
  Ok (set_final_score rec (fmin base_score 1.0)).

(** The sort key [x['final_score']]. *)
Definition final_key (rec : Recommendation) : float :=
  default 0%float (final_score rec).

(** [sorted(..., reverse=True)] is stable: an element is placed before
    the first one whose key is not greater than its own. *)
Fixpoint insert_desc (rec : Recommendation) (sorted : list Recommendation)
  : list Recommendation :=
  match sorted with
  | [] => [rec]
  | r :: rest =>
      if PrimFloat.ltb (final_key rec) (final_key r)
      then r :: insert_desc rec rest
      else rec :: r :: rest
  end.

Definition sorted_desc (recs : list Recommendation) : list Recommendation :=
  foldr insert_desc [] recs.

Definition _score_recommendations (recommendations : list Recommendation)
    (preferred_colors : option (list string)) (mood occasion : string)
  : res (list Recommendation) :=
  scored ← mapM (score_one preferred_colors) recommendations;
  Ok (sorted_desc scored).

(** ** The recommendation orchestrator *)

(** Step 1 of [_create_outfit_recommendation]: the three filters, each
    result adopted only when it is not empty. *)
Definition apply_filters (clothing_items : list ClothingItem)
    (mood occasion : string) (weather : option string)
  : list ClothingItem :=
  let current_items := clothing_items in
  let occasion_filtered := _filter_by_occasion current_items occasion in
  let current_items :=
    match occasion_filtered with
    | [] => current_items
    | _ :: _ => occasion_filtered
    end in
  let mood_filtered := _filter_by_mood current_items mood in
  let current_items :=
    match mood_filtered with
    | [] => current_items
    | _ :: _ => mood_filtered
    end in
  let weather_filtered := _filter_by_weather current_items weather in
  let current_items :=
    match weather_filtered with
    | [] => current_items
    | _ :: _ => weather_filtered
    end in
  match current_items with
  | [] => clothing_items
  | _ :: _ => current_items
  end.

(** [l[:n]] for a Python integer [n]. *)
Definition slice_to {A} (l : list A) (n : Z) : list A :=
  if 0 <=? n then take (Z.to_nat n) l
  else take (Z.to_nat (Z.of_nat (length l) + n)) l.

(** Steps 2 and 3: categorize, assemble, and fall back on the first
    items of [current_items] when the assembly is empty. *)
Definition select_outfit_items (current_items : list ClothingItem)
    (mood occasion : string) : res (list ClothingItem) :=
  let categorized_items := _categorize_items current_items in
  outfit_items ← _build_complete_outfit categorized_items mood occasion;
  match outfit_items with
  | [] => Ok (slice_to current_items
                (Z.min 3 (Z.of_nat (length current_items))))
  | _ :: _ => Ok outfit_items
  end.

(** Step 4: the view of one selected item. *)
Definition item_view (item : ClothingItem) : ItemDict :=
  {| d_item_id := Some (item_id item);
     d_category := str (category item);
     d_color := str (color item);
     d_image_url :=
       if truthy (image_path item) then str (image_path item) else "";
     d_formality_level :=
       match metadata item with
       | MetaDict (Some v) => v
       | _ => PInt 2
       end |}.

Definition _create_outfit_recommendation
    (clothing_items : list ClothingItem) (mood occasion : string)
    (weather : option string) : option Recommendation :=
  match clothing_items with
  | [] => None
  | _ :: _ =>
      let current_items :=
        apply_filters clothing_items mood occasion weather in
      match select_outfit_items current_items mood occasion with
      | Raise => None
      | Ok outfit_items =>
          let selected_items := item_view <$> outfit_items in
          match selected_items with
          | [] => None
          | _ :: _ =>
              let confidence :=
                _calculate_confidence_score selected_items mood occasion in
              Some {| items := Some selected_items;
                      mood := mood;
                      occasion := occasion;
                      confidence_score := Some confidence;
                      color_harmony := _assess_color_harmony selected_items;
                      weather_appropriate := true;
                      recommendation_method := None;
                      attempt_number := None;
                      final_score := None |}
          end
      end
  end.

(** The [weather] dictionary of a request: empty, or holding under
    ['condition'] nothing ([None]) or some JSON value, [PInt] and [PNone]
    standing for the values that are no strings. *)
Inductive weather_arg : Type :=
| EmptyWeather
| WeatherEntry (condition : option pyval).

(** [weather.get('condition', 'mild').lower() if weather else 'mild'],
    the first line of [_filter_by_weather], up to the lowering that
    [weather_condition] does: [.lower()] raises on a condition that is
    no string. *)
Definition read_condition (weather : weather_arg) : res (option string) :=
  match weather with
  | EmptyWeather => Ok None
  | WeatherEntry None => Ok None
  | WeatherEntry (Some (PStr condition)) => Ok (Some condition)
  | WeatherEntry (Some _) => Raise
  end.

(** [_filter_by_weather] on any weather dictionary. *)
Definition _filter_by_weather_dict (items : list ClothingItem)
    (weather : weather_arg) : res (list ClothingItem) :=
  condition ← read_condition weather;
  Ok (_filter_by_weather items condition).

(** Step 1 of [_create_outfit_recommendation] on any weather
    dictionary: the weather filter may raise. *)
Definition apply_filters_dict (clothing_items : list ClothingItem)
    (mood occasion : string) (weather : weather_arg)
  : res (list ClothingItem) :=
  let current_items := clothing_items in
  let occasion_filtered := _filter_by_occasion current_items occasion in
  let current_items :=
    match occasion_filtered with
    | [] => current_items
    | _ :: _ => occasion_filtered
    end in
  let mood_filtered := _filter_by_mood current_items mood in
  let current_items :=
    match mood_filtered with
    | [] => current_items
    | _ :: _ => mood_filtered
    end in
  weather_filtered ← _filter_by_weather_dict current_items weather;
  let current_items :=
    match weather_filtered with
    | [] => current_items
    | _ :: _ => weather_filtered
    end in
  Ok (match current_items with
      | [] => clothing_items
      | _ :: _ => current_items
      end).

(** [_create_outfit_recommendation] on any weather dictionary: the
    [except] clause of its [try] block turns an exception of the filters
    or of the assembly into [None]. *)
Definition _create_outfit_recommendation_dict
    (clothing_items : list ClothingItem) (mood occasion : string)
    (weather : weather_arg) : option Recommendation :=
  match clothing_items with
  | [] => None
  | _ :: _ =>
      match current_items ←
              apply_filters_dict clothing_items mood occasion weather;
            select_outfit_items current_items mood occasion with
      | Raise => None
      | Ok outfit_items =>
          let selected_items := item_view <$> outfit_items in
          match selected_items with
          | [] => None
          | _ :: _ =>
              let confidence :=
                _calculate_confidence_score selected_items mood occasion in
              Some {| items := Some selected_items;
                      mood := mood;
                      occasion := occasion;
                      confidence_score := Some confidence;
                      color_harmony := _assess_color_harmony selected_items;
                      weather_appropriate := true;
                      recommendation_method := None;
                      attempt_number := None;
                      final_score := None |}
          end
      end
  end.

Definition emergency_view (item : ClothingItem) : ItemDict :=
  {| d_item_id := Some (item_id item);
     d_category := str (category item);
     d_color := str (color item);
     d_image_url :=
       if truthy (image_path item) then str (image_path item) else "";
     d_formality_level := PInt 2 |}.

Definition _create_emergency_recommendation
    (clothing_items : list ClothingItem) (mood occasion : string)
  : option Recommendation :=
  match clothing_items with
  | [] => None
  | _ :: _ =>
      let selected_items := emergency_view <$> slice_to clothing_items 3 in
      Some {| items := Some selected_items;
              mood := mood;
              occasion := occasion;
              confidence_score := Some 0.5%float;
              color_harmony := true;
              weather_appropriate := true;
              recommendation_method := Some "emergency_fallback";
              attempt_number := None;
              final_score := None |}
  end.

Definition tag_rule_based (outfit : Recommendation) (attempt : nat)
  : Recommendation :=
  {| items := items outfit; mood := mood outfit;
     occasion := occasion outfit;
     confidence_score := confidence_score outfit;
     color_harmony := color_harmony outfit;
     weather_appropriate := weather_appropriate outfit;
     recommendation_method := Some "rule_based";
     attempt_number := Some (Z.of_nat attempt + 1);
     final_score := final_score outfit |}.

Section Orchestrator.

(** [random.shuffle] on the copy of the collection made in attempt
    number [attempt]. *)
Variable shuffle : nat → list ClothingItem → list ClothingItem.

(** The loop of [_generate_rule_based_recommendations] over the
    remaining attempt numbers. *)
Fixpoint rule_based_loop (attempts : list nat)
    (user_clothes : list ClothingItem) (mood occasion : string)
    (weather : option string) (num_recommendations : Z)
    (recommendations : list Recommendation) : list Recommendation :=
  match attempts with
  | [] => recommendations
  | attempt :: rest =>
      let shuffled_clothes := shuffle attempt user_clothes in
      match _create_outfit_recommendation shuffled_clothes mood occasion
              weather with
      | Some outfit =>
          let recommendations :=
            recommendations ++ [tag_rule_based outfit attempt] in
          if num_recommendations <=? Z.of_nat (length recommendations)
          then recommendations
          else rule_based_loop rest user_clothes mood occasion weather
                 num_recommendations recommendations
      | None =>
          rule_based_loop rest user_clothes mood occasion weather
            num_recommendations recommendations
      end
  end.

Definition _generate_rule_based_recommendations
    (user_clothes : list ClothingItem) (mood occasion : string)
    (weather : option string) (num_recommendations : Z)
  : list Recommendation :=
  rule_based_loop (seq 0 (Z.to_nat (num_recommendations * 2)))
    user_clothes mood occasion weather num_recommendations [].

(** [_get_user_clothing]: [query] is the outcome of the database
    query, an exception giving the empty collection. *)
Definition _get_user_clothing (query : res (list ClothingItem))
  : list ClothingItem :=
  match query with
  | Ok items => items
  | Raise => []
  end.

(** The [try] block of [generate_outfit_recommendations]. The model
    path is skipped: [self.ai_models] stays empty. *)
Definition generate_body (query : res (list ClothingItem))
    (preferred_colors : option (list string)) (mood occasion : string)
    (weather : option string) (num_recommendations : Z)
  : res (list Recommendation) :=
  let user_clothes := _get_user_clothing query in
  match user_clothes with
  | [] => Ok []
  | _ :: _ =>
      let rule_based_recs :=
        _generate_rule_based_recommendations user_clothes mood occasion
          weather num_recommendations in
      let recommendations := [] ++ rule_based_recs in
      let recommendations :=
        match recommendations with
        | [] =>
            match _create_emergency_recommendation user_clothes mood
                    occasion with
            | Some emergency_rec => [emergency_rec]
            | None => recommendations
            end
        | _ :: _ => recommendations
        end in
      let unique_recommendations :=
        _deduplicate_recommendations recommendations in
      scored_recommendations ←
        _score_recommendations unique_recommendations preferred_colors
          mood occasion;
      Ok (slice_to scored_recommendations num_recommendations)
  end.

(** [generate_outfit_recommendations]: the [except] clause turns any
    exception of the body into the emergency answer. *)
Definition generate_outfit_recommendations
    (query : res (list ClothingItem))
    (preferred_colors : option (list string)) (mood occasion : string)
    (weather : option string) (num_recommendations : Z)
  : res (list Recommendation) :=
  match generate_body query preferred_colors mood occasion weather
          num_recommendations with
  | Ok final_recommendations => Ok final_recommendations
  | Raise =>
      let user_clothes := _get_user_clothing query in
      match user_clothes with
      | [] => Ok []
      | _ :: _ =>
          match _create_emergency_recommendation user_clothes mood
                  occasion with
          | Some emergency_rec => Ok [emergency_rec]
          | None => Ok []
          end
      end
  end.

End Orchestrator.

End Engine.

(** ** The notions the properties are stated with *)

Module Reading.
Import Py Engine.

(** An item passes the occasion test, or raises inside it. *)
Definition occasion_keeps (requirements : occasion_requirement)
    (item : ClothingItem) : bool :=
  match occasion_test requirements item with
  | Ok false => false
  | _ => true
  end.

Definition mood_keeps (style : mood_style) (item : ClothingItem) : bool :=
  match mood_test style item with
  | Ok false => false
  | _ => true
  end.

(** What the weather loop leaves in [filtered]: the items that are not
    avoided, the preferred ones first (latest first), the others after
    them in their original order. *)
Definition weather_kept (adjustments : adjustment)
    (items : list ClothingItem) : list ClothingItem :=
  let survivors := filter (λ item, avoided adjustments item = false) items in
  reverse (filter (λ item, preferred adjustments item = true) survivors)
  ++ filter (λ item, preferred adjustments item = false) survivors.

(** The list holds at least [n] pairwise distinct values. *)
Definition distinct_at_least (n : nat) (l : list string) : Prop :=
  ∃ l', NoDup l' ∧ l' ⊆ l ∧ length l' = n.

(** The coordinate predicate in the specification's words: every color
    is neutral, or at most one entry of the list is not. *)
Definition coordinate (colors : list string) : Prop :=
  Forall (λ c, is_neutral c = true) colors
  ∨ (length (filter (λ c, is_neutral c = false) colors) ≤ 1)%nat.

Definition add_if (b : bool) (score : float) : float :=
  if b then (score + 0.1)%float else score.

(** Base 0.6, the three bonuses in the order the specification lists
    them, capped at 1.0. *)
Definition spec_confidence (two three coordinated : bool) : float :=
  fmin (add_if coordinated (add_if three (add_if two 0.6%float))) 1.0.

(** The item ids of a candidate, in the order of its items; [None] for
    a malformed candidate: no ['items'] key, or an item without
    ['item_id']. *)
Definition item_ids (rec : Recommendation) : option (list string) :=
  its ← items rec; mapM d_item_id its.

(** The candidate is malformed: its signature cannot be computed. *)
Definition malformed (rec : Recommendation) : Prop :=
  combo_signature rec = Raise.

Global Instance malformed_dec rec : Decision (malformed rec).
Proof.
  unfold malformed. destruct (combo_signature rec); [right|left]; done.
Defined.

(** The signature of a candidate, when it can be computed. *)
Definition signature_of (rec : Recommendation) : option (list string) :=
  match combo_signature rec with
  | Ok signature => Some signature
  | Raise => None
  end.

(** The computable signatures of a list of candidates, in order. *)
Definition signatures (recs : list Recommendation) : list (list string) :=
  omap signature_of recs.

(** The candidates the engine builds: a rule-based one carries the
    confidence computed from its non-empty item list, the emergency one
    the constant 0.5. *)
Definition built_by_engine (rec : Recommendation) : Prop :=
  ∃ its, items rec = Some its ∧ its ≠ [] ∧
    (confidence_score rec = Some 0.5%float
     ∨ confidence_score rec
       = Some (_calculate_confidence_score its (mood rec) (occasion rec))).

(** A candidate after ranking: both scores are present and in [0,1]. *)
Definition scores_in_unit (rec : Recommendation) : Prop :=
  ∃ c f, confidence_score rec = Some c ∧ in_unit c
         ∧ final_score rec = Some f ∧ in_unit f.

(** The items of the end-to-end scenario. *)
Definition scenario_item (id category : string) (formality : Z)
  : ClothingItem :=
  {| item_id := id; category := Some category; color := Some "black";
     image_path := None; metadata := MetaDict (Some (PInt formality)) |}.

(** The collection of the scenario: top, bottom and shoes, all black, of
    formality 3, 3 and 2. *)
Definition scenario_items (id1 id2 id3 : string) : list ClothingItem :=
  [ scenario_item id1 "top" 3; scenario_item id2 "bottom" 3;
    scenario_item id3 "shoes" 2 ].

(** A candidate made of items with the given ids ([None] for an item
    without ['item_id']), for concrete inputs. *)
Definition candidate_of (ids : list (option string)) : Recommendation :=
  {| items :=
       Some ((λ id, {| d_item_id := id; d_category := "shirt";
                       d_color := "black"; d_image_url := "";
                       d_formality_level := PInt 2 |}) <$> ids);
     mood := "relaxed"; occasion := "casual";
     confidence_score := Some 0.5%float; color_harmony := true;
     weather_appropriate := true; recommendation_method := None;
     attempt_number := None; final_score := None |}.

(** An item with no metadata and no image, for concrete inputs. *)
Definition plain_item (id category color : string) : ClothingItem :=
  {| item_id := id; category := Some category; color := Some color;
     image_path := None; metadata := NoMetadata |}.

(** The five slots of the assembler. *)
Inductive slot : Type :=
| Tops | Bottoms | Outerwear | Footwear | Accessories.

Global Instance slot_eq_dec : EqDecision slot.
Proof. solve_decision. Defined.

(** The slot [_categorize_items] puts an item in. *)
Definition slot_of (item : ClothingItem) : slot :=
  let category :=
    match category item with
    | Some c => if truthy (Some c) then lower c else "accessories"
    | None => "accessories"
    end in
  if in_list category (essential_categories !!! "tops") then Tops
  else if in_list category (essential_categories !!! "bottoms") then Bottoms
  else if in_list category (essential_categories !!! "outerwear")
       then Outerwear
  else if in_list category (essential_categories !!! "footwear") then Footwear
  else Accessories.

(** The first item of each slot, in the order the assembler fills them;
    outerwear only for a dress-up occasion. *)
Definition slot_heads (slots : Categorized) (occasion : string)
  : list ClothingItem :=
  take 1 (tops slots) ++ take 1 (bottoms slots)
  ++ (if in_list occasion dress_up_occasions then take 1 (outerwear slots)
      else [])
  ++ take 1 (footwear slots).

(** The weather dictionary holds a condition that is no string. *)
Definition condition_not_a_string (weather : weather_arg) : Prop :=
  ∃ value, weather = WeatherEntry (Some value) ∧ ∀ s, value ≠ PStr s.

End Reading.

(** * Properties *)

Import Py ColorAnalyzer Engine Reading.

(** Two optional scores differ when [PrimFloat.eqb] against 0.5 tells
    them apart. *)
Ltac float_neq :=
  let H := fresh in
  intros H;
  apply (f_equal (λ o : option float,
                    match o with
                    | Some x => PrimFloat.eqb x 0.5%float
                    | None => false
                    end)) in H;
  vm_compute in H; discriminate H.

(** ** Color harmony *)

Section ColorHarmony.

Lemma hue_known color h :
  hue color = Some h → h ∈ [0; 30; 60; 120; 240; 270; 330].
Proof.
  unfold hue. intros Hh.
  apply fmap_Some in Hh as ([[h' s] v] & Hlk & ->).
  apply elem_of_list_to_map_2 in Hlk.
  unfold color_wheel_items in Hlk.
  repeat (apply elem_of_cons in Hlk as [Hlk | Hlk];
          [ injection Hlk as -> -> -> ->; set_solver | ]).
  by apply elem_of_nil in Hlk.
Qed.

Lemma hue_range color h : hue color = Some h → 0 ≤ h < 360.
Proof.
  intros Hh%hue_known.
  repeat (apply elem_of_cons in Hh as [-> | Hh]; [ lia | ]).
  by apply elem_of_nil in Hh.
Qed.

(** For hues of the wheel the folded [hue_diff] of the code is the
    circular distance. *)
Lemma folded_diff_is_circular h1 h2 :
  0 ≤ h1 < 360 → 0 ≤ h2 < 360 →
  (if 180 <? Z.abs (h1 - h2) then 360 - Z.abs (h1 - h2)
   else Z.abs (h1 - h2)) = circular_distance h1 h2.
Proof. intros ??. unfold circular_distance. case_match; lia. Qed.

Lemma pair_harmony_unfold color1 color2 h1 h2 :
  hue color1 = Some h1 → hue color2 = Some h2 →
  _calculate_color_pair_harmony color1 color2
  = Some (code_pair_score (circular_distance h1 h2)).
Proof.
  intros H1 H2. unfold _calculate_color_pair_harmony.
  rewrite H1, H2. simpl.
  rewrite folded_diff_is_circular by eauto using hue_range.
  f_equal. unfold code_pair_score.
  pose proof (hue_range _ _ H1). pose proof (hue_range _ _ H2).
  assert (0 ≤ circular_distance h1 h2 ≤ 180)
    by (unfold circular_distance; lia).
  repeat case_match; try reflexivity; lia.
Qed.

(** C2, as amended: for two colors of the wheel, with [d] their circular
    hue distance (between 0 and 180), the pairwise harmony score is 0.9
    when 150 < d <= 180, 0.8 when d < 30, 0.7 when 90 < d < 150, and 0.5
    otherwise, that is for 30 <= d <= 90 and for d = 150. *)
Theorem pair_harmony_by_distance color1 color2 h1 h2 :
  hue color1 = Some h1 → hue color2 = Some h2 →
  let d := circular_distance h1 h2 in
  0 ≤ d ≤ 180 ∧
  _calculate_color_pair_harmony color1 color2 =
    Some (if bool_decide (150 < d ≤ 180) then 0.9%float
          else if bool_decide (d < 30) then 0.8%float
          else if bool_decide (90 < d < 150) then 0.7%float
          else 0.5%float).
Proof.
  intros H1 H2 d.
  pose proof (hue_range _ _ H1). pose proof (hue_range _ _ H2).
  assert (0 ≤ d ≤ 180) as Hd by (unfold d, circular_distance; lia).
  split; [exact Hd|].
  rewrite (pair_harmony_unfold _ _ _ _ H1 H2). fold d.
  unfold code_pair_score.
  repeat case_bool_decide; repeat case_match; try reflexivity; lia.
Qed.

Lemma pair_harmony_by_distance_witness :
  circular_distance 60 240 = 180 ∧
  _calculate_color_pair_harmony "yellow" "blue" = Some 0.9%float.
Proof.
  split; [reflexivity|].
  exact (proj2 (pair_harmony_by_distance "yellow" "blue" 60 240
                  eq_refl eq_refl)).
Defined.

(** C2 as stated fails: orange (hue 30) and blue (hue 240) are at
    circular distance 150, inside the closed band [150,180], and score
    0.5 instead of 0.9. *)
Lemma pair_harmony_closed_band_fails :
  hue "orange" = Some 30 ∧ hue "blue" = Some 240 ∧
  circular_distance 30 240 = 150 ∧
  _calculate_color_pair_harmony "orange" "blue" = Some 0.5%float ∧
  spec_pair_score 150 = 0.9%float ∧
  _calculate_color_pair_harmony "orange" "blue"
    ≠ Some (spec_pair_score (circular_distance 30 240)).
Proof.
  repeat split; try reflexivity.
  vm_compute. float_neq.
Qed.

(** The same at the lower end of the other band: red and purple are at
    distance 90 and score 0.5, not 0.7. *)
Lemma pair_harmony_at_ninety :
  circular_distance 0 270 = 90 ∧
  _calculate_color_pair_harmony "red" "purple" = Some 0.5%float ∧
  spec_pair_score 90 = 0.7%float.
Proof. repeat split; reflexivity. Qed.

(** The score does not depend on the order of the two colors. *)
Lemma pair_harmony_symmetric color1 color2 :
  _calculate_color_pair_harmony color1 color2
  = _calculate_color_pair_harmony color2 color1.
Proof.
  unfold _calculate_color_pair_harmony.
  destruct (hue color1) as [h1|], (hue color2) as [h2|]; simpl; try done.
  by replace (Z.abs (h2 - h1)) with (Z.abs (h1 - h2)) by lia.
Qed.

End ColorHarmony.

(** ** The candidate filter chain *)

Section Filters.

(** A loop that only appends is a [filter]. *)
Lemma foldl_append_filter {A} (keep : A → bool)
    (step : list A → A → list A) :
  (∀ acc x, step acc x = if keep x then acc ++ [x] else acc) →
  ∀ l acc, foldl step acc l = acc ++ filter (λ x, keep x = true) l.
Proof.
  intros Hstep l. induction l as [|x l IH]; intros acc; simpl.
  - by rewrite app_nil_r.
  - rewrite IH, Hstep, filter_cons.
    destruct (keep x); case_decide; try done.
    by rewrite <- app_assoc.
Qed.

Lemma occasion_loop requirements items :
  foldl (occasion_step requirements) [] items
  = filter (λ item, occasion_keeps requirements item = true) items.
Proof.
  apply (foldl_append_filter (occasion_keeps requirements)).
  intros acc x. unfold occasion_step, occasion_keeps.
  by destruct (occasion_test requirements x) as [[]|].
Qed.

Lemma mood_loop style items :
  foldl (mood_step style) [] items
  = filter (λ item, mood_keeps style item = true) items.
Proof.
  apply (foldl_append_filter (mood_keeps style)).
  intros acc x. unfold mood_step, mood_keeps.
  by destruct (mood_test style x) as [[]|].
Qed.

Lemma weather_loop_acc adjustments items acc :
  foldl (weather_step adjustments) acc items
  = reverse (filter (λ item, preferred adjustments item = true)
               (filter (λ item, avoided adjustments item = false) items))
    ++ acc
    ++ filter (λ item, preferred adjustments item = false)
         (filter (λ item, avoided adjustments item = false) items).
Proof.
  revert acc. induction items as [|x items IH]; intros acc; simpl.
  - by rewrite app_nil_r.
  - rewrite IH. unfold weather_step.
    destruct (avoided adjustments x) eqn:Ea.
    + rewrite (filter_cons_False _ x) by congruence.
      unfold avoided in Ea. apply orb_true_iff in Ea as [-> | Ea]; [done|].
      rewrite Ea. by case_match.
    + rewrite (filter_cons_True _ x) by done.
      unfold avoided in Ea. apply orb_false_iff in Ea as [-> ->].
      fold (preferred adjustments x).
      destruct (preferred adjustments x) eqn:Ep.
      * rewrite (filter_cons_True _ x), (filter_cons_False _ x),
          reverse_cons, <- !app_assoc by congruence.
        done.
      * rewrite (filter_cons_False _ x), (filter_cons_True _ x),
          <- !app_assoc by congruence.
        done.
Qed.

Lemma weather_loop adjustments items :
  foldl (weather_step adjustments) [] items = weather_kept adjustments items.
Proof. by rewrite weather_loop_acc. Qed.

Lemma filter_all_false {A} (keep : A → bool) (l : list A) :
  Forall (λ x, keep x = false) l → filter (λ x, keep x = true) l = [].
Proof.
  induction 1 as [|x l Hx _ IH]; [done|].
  rewrite filter_cons. case_decide; [congruence|done].
Qed.

Lemma weather_kept_all_avoided adjustments items :
  Forall (λ item, avoided adjustments item = true) items →
  weather_kept adjustments items = [].
Proof.
  intros Hall. unfold weather_kept.
  assert (filter (λ item, avoided adjustments item = false) items = [])
    as ->; [|done].
  induction Hall as [|x l Hx _ IH]; [done|].
  rewrite filter_cons. case_decide; [congruence|done].
Qed.

(** The last step common to the three filters. *)
Lemma fallback_nonempty {A} (filtered items : list A) :
  items ≠ [] →
  match filtered with [] => items | _ :: _ => filtered end ≠ [].
Proof. by destruct filtered. Qed.

(** C1: on a non-empty item list each of the three filters returns a
    non-empty list, whatever the context key; and when every item fails
    the filter's criterion the input list comes back unchanged. *)
Theorem filters_fail_soft (items : list ClothingItem) :
  items ≠ [] →
  (∀ occasion,
      _filter_by_occasion items occasion ≠ []
      ∧ ∀ requirements,
          occasion_requirements !! occasion = Some requirements →
          Forall (λ item, occasion_test requirements item = Ok false) items →
          _filter_by_occasion items occasion = items)
  ∧ (∀ mood,
      _filter_by_mood items mood ≠ []
      ∧ ∀ style,
          mood_style_mapping !! mood = Some style →
          Forall (λ item, mood_test style item = Ok false) items →
          _filter_by_mood items mood = items)
  ∧ (∀ weather,
      _filter_by_weather items weather ≠ []
      ∧ ∀ adjustments,
          weather_adjustments !! weather_condition weather
            = Some adjustments →
          Forall (λ item, avoided adjustments item = true) items →
          _filter_by_weather items weather = items).
Proof.
  intros Hne. split; [|split].
  - intros occasion. unfold _filter_by_occasion.
    destruct (occasion_requirements !! occasion) as [requirements|];
      [|split; [done|congruence]].
    split; [by apply fallback_nonempty|].
    intros ? [= <-] Hall. rewrite occasion_loop, filter_all_false; [done|].
    eapply Forall_impl; [exact Hall|].
    intros item Ht. unfold occasion_keeps. by rewrite Ht.
  - intros mood. unfold _filter_by_mood.
    destruct (mood_style_mapping !! mood) as [style|];
      [|split; [done|congruence]].
    split; [by apply fallback_nonempty|].
    intros ? [= <-] Hall. rewrite mood_loop, filter_all_false; [done|].
    eapply Forall_impl; [exact Hall|].
    intros item Ht. unfold mood_keeps. by rewrite Ht.
  - intros weather. unfold _filter_by_weather.
    destruct (weather_adjustments !! weather_condition weather)
      as [adjustments|]; [|split; [done|congruence]].
    split.
    + destruct (neutral adjustments) as [[]|];
        by try apply fallback_nonempty.
    + intros ? [= <-] Hall.
      rewrite weather_loop, weather_kept_all_avoided by done.
      by destruct (neutral adjustments) as [[]|].
Qed.

Lemma filters_fail_soft_witness :
  _filter_by_occasion [plain_item "1" "shirt" "green"] "formal"
  = [plain_item "1" "shirt" "green"]
  ∧ _filter_by_weather [plain_item "1" "coat" "red"] (Some "hot") ≠ [].
Proof.
  split.
  - refine (proj2 (proj1 (filters_fail_soft
              [plain_item "1" "shirt" "green"] _) "formal") _ eq_refl _).
    + discriminate.
    + repeat constructor.
  - refine (proj1 (proj2 (proj2 (filters_fail_soft
              [plain_item "1" "coat" "red"] _)) (Some "hot"))).
    discriminate.
Defined.

Lemma weather_table_keys condition adjustments :
  weather_adjustments !! condition = Some adjustments →
  condition ∈ ["hot"; "cold"; "rainy"]
  ∨ (condition = "mild" ∧ neutral adjustments = Some true).
Proof.
  intros Hlk%elem_of_list_to_map_2.
  repeat (apply elem_of_cons in Hlk as [Hlk | Hlk];
          [ injection Hlk as -> ->; first [ left; set_solver | by right ] | ]).
  by apply elem_of_nil in Hlk.
Qed.

(** How the loop of the weather filter reads a table entry, whatever
    the entry holds: an item is dropped on its category against
    [avoid_categories] or its color against [avoid]; the survivors whose
    category is in [prefer_categories] come first (the latest one met
    first), the others follow in their original order; when no item
    survives the input list is returned unchanged. Under mild or an
    unrecognized condition the input list is returned unchanged. *)
Lemma weather_filter_reads_entry (items : list ClothingItem)
    (weather : option string) :
  let condition := weather_condition weather in
  if bool_decide (condition ∈ ["hot"; "cold"; "rainy"]) then
    ∃ adjustments,
      weather_adjustments !! condition = Some adjustments
      ∧ _filter_by_weather items weather
        = match weather_kept adjustments items with
          | [] => items
          | kept => kept
          end
  else _filter_by_weather items weather = items.
Proof.
  intros condition. unfold _filter_by_weather. fold condition.
  case_bool_decide as Hc.
  - assert (∃ adjustments,
               weather_adjustments !! condition = Some adjustments
               ∧ neutral adjustments = None) as (adjustments & Hlk & Hn).
    { repeat (apply elem_of_cons in Hc as [-> | Hc];
              [ eexists; split; reflexivity | ]).
      by apply elem_of_nil in Hc. }
    exists adjustments. split; [done|].
    rewrite Hlk, Hn, weather_loop.
    by destruct (weather_kept adjustments items).
  - destruct (weather_adjustments !! condition) as [adjustments|] eqn:Hlk;
      [|done].
    apply weather_table_keys in Hlk as [Hin | [_ ->]]; done.
Qed.

(** C3, the code at the failing input. The entry of cold stores the
    category names shorts and tank_top under the key [avoid], which the
    loop compares with colors, and nothing under [avoid_categories], the
    key under which hot stores its categories: a pair of shorts is not
    dropped under cold, and stays behind the coat that the loop moved to
    the front. The entry of hot stores shorts and tank_top under
    [prefer], a key the loop never reads, and nothing under
    [prefer_categories], the key of cold and rainy: under hot the coat is
    dropped and the shorts are not moved to the front. *)
Theorem weather_filter_table_slips :
  (∃ cold,
      weather_adjustments !! "cold" = Some cold
      ∧ avoid cold = Some ["shorts"; "tank_top"]
      ∧ avoid_categories cold = None
      ∧ _filter_by_weather
          [plain_item "1" "hat" "red"; plain_item "2" "shorts" "blue";
           plain_item "3" "coat" "black"] (Some "cold")
        = [plain_item "3" "coat" "black"; plain_item "1" "hat" "red";
           plain_item "2" "shorts" "blue"])
  ∧ (∃ hot,
      weather_adjustments !! "hot" = Some hot
      ∧ prefer hot = Some ["shorts"; "tank_top"]
      ∧ prefer_categories hot = None
      ∧ avoid_categories hot = Some ["coat"; "sweater"]
      ∧ _filter_by_weather
          [plain_item "1" "hat" "red"; plain_item "2" "shorts" "blue";
           plain_item "3" "coat" "black"] (Some "hot")
        = [plain_item "1" "hat" "red"; plain_item "2" "shorts" "blue"]).
Proof.
  split.
  - eexists. split; [reflexivity|]. by repeat split.
  - eexists. split; [reflexivity|]. by repeat split.
Qed.

(** The table as the loop reads it. Under cold the [avoid] list holds
    category names but is compared with colors, so shorts stay; under hot
    the list stored under [prefer] is not read, so shorts keep their
    place; under rainy a white item goes and jacket and boots come first,
    the later one ahead. *)
Example weather_table_as_read :
  _filter_by_weather
    [plain_item "1" "hat" "red"; plain_item "2" "shorts" "blue"] (Some "cold")
  = [plain_item "1" "hat" "red"; plain_item "2" "shorts" "blue"]
  ∧ _filter_by_weather
      [plain_item "1" "hat" "red"; plain_item "2" "shorts" "blue"] (Some "hot")
    = [plain_item "1" "hat" "red"; plain_item "2" "shorts" "blue"]
  ∧ _filter_by_weather
      [plain_item "1" "hat" "white"; plain_item "2" "boots" "brown";
       plain_item "3" "scarf" "red"; plain_item "4" "jacket" "navy"]
      (Some "Rainy")
    = [plain_item "4" "jacket" "navy"; plain_item "2" "boots" "brown";
       plain_item "3" "scarf" "red"].
Proof. repeat split; reflexivity. Qed.

End Filters.

(** ** The outfit assembler *)

Section Assembler.

Lemma categorize_tops_have_category items slots :
  Forall (λ item, is_Some (category item)) (tops slots) →
  Forall (λ item, is_Some (category item))
    (tops (foldl categorize_step slots items)).
Proof.
  revert slots. induction items as [|x items IH]; intros slots Hs; [done|].
  simpl. apply IH. unfold categorize_step.
  destruct (category x) as [c|] eqn:Hc.
  - repeat case_match; simpl; try done.
    all: apply Forall_app; split; [done|].
    all: repeat constructor; by rewrite Hc.
  - assert (in_list "accessories" (essential_categories !!! "tops") = false)
      as -> by reflexivity.
    repeat case_match; done.
Qed.

Lemma slice_first_three {A} (l : list A) :
  slice_to l (Z.min 3 (Z.of_nat (length l))) = take 3 l.
Proof.
  unfold slice_to.
  destruct (Z.leb_spec 0 (Z.min 3 (Z.of_nat (length l)))); [|lia].
  destruct (decide (3 ≤ length l)%nat).
  - by replace (Z.to_nat (Z.min 3 (Z.of_nat (length l)))) with 3%nat by lia.
  - replace (Z.to_nat (Z.min 3 (Z.of_nat (length l)))) with (length l)
      by lia.
    by rewrite !take_ge by lia.
Qed.

Lemma apply_filters_nonempty clothing_items mood occasion weather :
  clothing_items ≠ [] →
  apply_filters clothing_items mood occasion weather ≠ [].
Proof. intros Hne. unfold apply_filters. by case_match. Qed.

(** The assembly of any slot table whose first top, if any, has a
    category. *)
Lemma build_complete_outfit_spec slots mood occasion :
  Forall (λ item, is_Some (category item)) (tops slots) →
  ∃ outfit,
    _build_complete_outfit slots mood occasion = Ok outfit
    ∧ (length outfit ≤ 4)%nat
    ∧ (outfit = [] ↔
         tops slots = [] ∧ bottoms slots = [] ∧ footwear slots = []
         ∧ accessories slots = []
         ∧ (outerwear slots = [] ∨ occasion ∉ dress_up_occasions)).
Proof.
  destruct slots as [t b o f a]. simpl. intros Ht.
  unfold _build_complete_outfit, in_list. simpl.
  assert (∀ top rest, t = top :: rest →
            ∃ has_dress, any_dress [top] = Ok has_dress) as Hdress.
  { intros top rest ->. apply Forall_cons in Ht as [[c Hc] _].
    simpl. rewrite Hc. case_bool_decide; eauto. }
  destruct t as [|top t].
  - destruct b, o, f, a; simpl; case_bool_decide; simpl;
      repeat case_bool_decide; simpl in *; try lia;
      (eexists; split; [reflexivity|]; split; [simpl; lia|]);
      intuition congruence.
  - destruct (Hdress top t eq_refl) as [has_dress Hd].
    simpl in Hd |- *.
    destruct b, o, f, a; simpl; try rewrite Hd; simpl;
      destruct has_dress; simpl;
      case_bool_decide; simpl;
      repeat case_bool_decide; simpl in *; try lia;
      (eexists; split; [reflexivity|]; split; [simpl; lia|]);
      intuition congruence.
Qed.

(** [_create_outfit_recommendation] past its guard on the empty list. *)
Lemma create_outfit_unfold clothing_items mood occasion weather :
  clothing_items ≠ [] →
  _create_outfit_recommendation clothing_items mood occasion weather
  = match select_outfit_items
            (apply_filters clothing_items mood occasion weather)
            mood occasion with
    | Raise => None
    | Ok outfit_items =>
        match item_view <$> outfit_items with
        | [] => None
        | selected_items =>
            Some {| items := Some selected_items;
                    mood := mood;
                    occasion := occasion;
                    confidence_score :=
                      Some (_calculate_confidence_score selected_items
                              mood occasion);
                    color_harmony := _assess_color_harmony selected_items;
                    weather_appropriate := true;
                    recommendation_method := None;
                    attempt_number := None;
                    final_score := None |}
        end
    end.
Proof.
  intros Hne. unfold _create_outfit_recommendation.
  destruct clothing_items; [done|].
  destruct (select_outfit_items _ _ _) as [outfit_items|]; [|done].
  by destruct (item_view <$> outfit_items).
Qed.

(** C4, as amended: for a non-empty collection, the outfit assembled from
    the filtered items has at most 4 items (so between 0 and 5); it is
    empty exactly when the tops, bottoms, footwear and accessories slots
    are empty and either the outerwear slot is empty or the occasion is
    not one of work, formal, date; when it is empty the candidate is made
    of the first up-to-3 items of the filtered list. *)
Theorem assembled_outfit_empty_iff (clothing_items : list ClothingItem)
    (mood occasion : string) (weather : option string) :
  clothing_items ≠ [] →
  let current_items := apply_filters clothing_items mood occasion weather in
  let slots := _categorize_items current_items in
  ∃ outfit rec,
    _build_complete_outfit slots mood occasion = Ok outfit
    ∧ (length outfit ≤ 4)%nat
    ∧ (outfit = [] ↔
         tops slots = [] ∧ bottoms slots = [] ∧ footwear slots = []
         ∧ accessories slots = []
         ∧ (outerwear slots = [] ∨ occasion ∉ dress_up_occasions))
    ∧ _create_outfit_recommendation clothing_items mood occasion weather
      = Some rec
    ∧ items rec
      = Some (item_view <$> match outfit with
                            | [] => take 3 current_items
                            | _ :: _ => outfit
                            end).
Proof.
  intros Hne current_items slots.
  destruct (build_complete_outfit_spec slots mood occasion)
    as (outfit & Hb & Hlen & Hiff).
  { apply categorize_tops_have_category. constructor. }
  assert (select_outfit_items current_items mood occasion
          = Ok (match outfit with
                | [] => take 3 current_items
                | _ :: _ => outfit
                end)) as Hsel.
  { unfold select_outfit_items. fold slots. rewrite Hb. simpl.
    destruct outfit; [by rewrite slice_first_three|done]. }
  assert (current_items ≠ []) as Hcur by by apply apply_filters_nonempty.
  rewrite create_outfit_unfold by done. fold current_items. rewrite Hsel.
  destruct (match outfit with
            | [] => take 3 current_items
            | _ :: _ => outfit
            end) as [|selected more] eqn:Hchosen.
  { destruct outfit; [|done]. by destruct current_items. }
  rewrite fmap_cons. eexists outfit, _.
  do 3 (split; [done|]). split; [reflexivity|].
  simpl. by rewrite Hchosen.
Qed.

Lemma assembled_outfit_empty_iff_witness :
  ∃ rec,
    _create_outfit_recommendation
      [plain_item "1" "coat" "red"; plain_item "2" "jacket" "blue"]
      "" "casual" (Some "hot") = Some rec
    ∧ items rec = Some [item_view (plain_item "2" "jacket" "blue")].
Proof.
  destruct (assembled_outfit_empty_iff
              [plain_item "1" "coat" "red"; plain_item "2" "jacket" "blue"]
              "" "casual" (Some "hot") ltac:(discriminate))
    as (outfit & rec & Hb & _ & _ & Hrec & Hitems).
  exists rec. split; [exact Hrec|].
  vm_compute in Hb. injection Hb as <-. exact Hitems.
Defined.

(** C4 as stated fails: from a coat and a jacket, under hot weather and
    a casual occasion, the filtered list is the jacket alone; it sits in
    the outerwear slot, yet the assembled outfit is empty, and the
    fallback takes the filtered list, not the first items of the
    unfiltered collection. *)
Lemma assembled_outfit_empty_with_full_slot :
  let clothing_items :=
    [plain_item "1" "coat" "red"; plain_item "2" "jacket" "blue"] in
  let current_items := apply_filters clothing_items "" "casual" (Some "hot") in
  current_items = [plain_item "2" "jacket" "blue"]
  ∧ outerwear (_categorize_items current_items)
    = [plain_item "2" "jacket" "blue"]
  ∧ _build_complete_outfit (_categorize_items current_items) "" "casual"
    = Ok []
  ∧ select_outfit_items current_items "" "casual"
    = Ok [plain_item "2" "jacket" "blue"]
  ∧ select_outfit_items current_items "" "casual"
    ≠ Ok (take 3 clothing_items).
Proof.
  repeat split; try reflexivity. vm_compute. discriminate.
Qed.

End Assembler.

(** ** The confidence score *)

Section Confidence.

Lemma distinct_at_least_size (n : nat) (l : list string) :
  (n ≤ size (list_to_set l : gset string))%nat ↔ distinct_at_least n l.
Proof.
  unfold distinct_at_least, size, set_size. simpl. split.
  - intros Hn. exists (take n (elements (list_to_set l : gset string))).
    split_and!.
    + apply (sublist_NoDup _ (elements (list_to_set l : gset string)));
        [apply NoDup_elements|apply sublist_take].
    + intros x Hx. apply subseteq_take in Hx.
      by apply elem_of_elements, elem_of_list_to_set in Hx.
    + rewrite length_take. lia.
  - intros (l' & Hnd & Hsub & <-).
    apply submseteq_length, NoDup_submseteq; [done|].
    intros x Hx. apply elem_of_elements, elem_of_list_to_set. by apply Hsub.
Qed.

Lemma neutral_split (colors : list string) :
  (length (filter is_neutral colors)
   + length (filter (λ c, is_neutral c = false) colors)
   = length colors)%nat.
Proof.
  induction colors as [|c colors IH]; [done|].
  destruct (is_neutral c) eqn:Hc.
  - rewrite (filter_cons_True _ c) by (by apply Is_true_true).
    rewrite (filter_cons_False _ c) by congruence. simpl. lia.
  - rewrite (filter_cons_False _ c) by (by apply Is_true_false).
    rewrite (filter_cons_True _ c) by done. simpl. lia.
Qed.

Lemma all_neutral_iff (colors : list string) :
  Forall (λ c, is_neutral c = true) colors
  ↔ length (filter (λ c, is_neutral c = false) colors) = 0%nat.
Proof.
  induction colors as [|c colors IH]; [by split|].
  rewrite Forall_cons, IH. destruct (is_neutral c) eqn:Hc.
  - rewrite (filter_cons_False _ c) by congruence. intuition.
  - rewrite (filter_cons_True _ c) by done. simpl. intuition congruence.
Qed.

(** [_colors_coordinate] decides the coordinate predicate. *)
Lemma colors_coordinate_spec (colors : list string) :
  _colors_coordinate colors = true ↔ coordinate colors.
Proof.
  unfold coordinate. rewrite all_neutral_iff.
  pose proof (neutral_split colors) as Hsplit.
  unfold _colors_coordinate.
  destruct colors as [|c colors]; [simpl; split; auto with lia|].
  destruct (Z.eqb_spec
              (Z.of_nat (length (filter is_neutral (c :: colors))))
              (Z.of_nat (length (c :: colors)))) as [Heq|Hneq].
  - split; [lia|done].
  - rewrite Z.leb_le. lia.
Qed.

(** The code past its guard on the empty list. *)
Lemma confidence_unfold (outfit_items : list ItemDict)
    (mood occasion : string) :
  outfit_items ≠ [] →
  _calculate_confidence_score outfit_items mood occasion
  = spec_confidence
      (bool_decide (2 ≤ size (list_to_set (d_category <$> outfit_items)
                                : gset string))%nat)
      (bool_decide (3 ≤ size (list_to_set (d_category <$> outfit_items)
                                : gset string))%nat)
      (_colors_coordinate (d_color <$> outfit_items)).
Proof. by destruct outfit_items. Qed.

(** The values of the formula in binary64. *)
Example confidence_table :
  spec_confidence false false false = 0.6%float
  ∧ spec_confidence false false true = 0.7%float
  ∧ spec_confidence true false false = 0.7%float
  ∧ spec_confidence true false true = 0.7999999999999999%float
  ∧ spec_confidence true true false = 0.7999999999999999%float
  ∧ spec_confidence true true true = 0.8999999999999999%float.
Proof. repeat split; reflexivity. Qed.

(** C5: for a non-empty list of outfit items the confidence score is
    0.6, plus 0.1 when the items span at least 2 distinct categories,
    plus 0.1 when they span at least 3, plus 0.1 when the list of their
    colors satisfies the coordinate predicate, the total capped at 1.0
    (the sums being those of binary64 arithmetic). *)
Theorem confidence_score_formula (outfit_items : list ItemDict)
    (mood occasion : string) :
  outfit_items ≠ [] →
  ∃ two three coordinated : bool,
    (two = true ↔ distinct_at_least 2 (d_category <$> outfit_items))
    ∧ (three = true ↔ distinct_at_least 3 (d_category <$> outfit_items))
    ∧ (coordinated = true ↔ coordinate (d_color <$> outfit_items))
    ∧ _calculate_confidence_score outfit_items mood occasion
      = spec_confidence two three coordinated.
Proof.
  intros Hne. rewrite confidence_unfold by done.
  eexists _, _, _. split_and!; [..|reflexivity].
  - by rewrite bool_decide_eq_true, distinct_at_least_size.
  - by rewrite bool_decide_eq_true, distinct_at_least_size.
  - apply colors_coordinate_spec.
Qed.

Lemma confidence_score_formula_witness :
  ∃ two three coordinated : bool,
    (two = true ↔ distinct_at_least 2 ["shirt"; "jeans"])
    ∧ (three = true ↔ distinct_at_least 3 ["shirt"; "jeans"])
    ∧ (coordinated = true ↔ coordinate ["red"; "black"])
    ∧ _calculate_confidence_score
        [item_view (plain_item "1" "shirt" "red");
         item_view (plain_item "2" "jeans" "black")] "relaxed" "casual"
      = spec_confidence two three coordinated.
Proof.
  apply (confidence_score_formula
           [item_view (plain_item "1" "shirt" "red");
            item_view (plain_item "2" "jeans" "black")] "relaxed" "casual").
  discriminate.
Defined.

(** The five values the confidence score takes. *)
Lemma confidence_values (outfit_items : list ItemDict)
    (mood occasion : string) :
  outfit_items ≠ [] →
  ∃ two three coordinated : bool,
    _calculate_confidence_score outfit_items mood occasion
    = spec_confidence two three coordinated.
Proof. intros Hne. rewrite confidence_unfold by done. eauto. Qed.

Lemma confidence_in_unit (outfit_items : list ItemDict)
    (mood occasion : string) :
  in_unit (_calculate_confidence_score outfit_items mood occasion).
Proof.
  destruct outfit_items as [|item rest]; [by vm_compute|].
  destruct (confidence_values (item :: rest) mood occasion)
    as ([] & [] & [] & ->); by vm_compute.
Qed.

(** C10: for a non-empty list of outfit items the confidence score is at
    least 0.6; hence every candidate that [_create_outfit_recommendation]
    returns has a confidence score strictly above the 0.5 carried by
    every emergency candidate. *)
Theorem confidence_at_least_base (outfit_items : list ItemDict)
    (mood occasion : string) :
  outfit_items ≠ [] →
  PrimFloat.leb 0.6 (_calculate_confidence_score outfit_items mood occasion)
    = true
  ∧ ∀ clothing_items weather rec fallback_items mood' occasion' emergency,
      _create_outfit_recommendation clothing_items mood occasion weather
        = Some rec →
      _create_emergency_recommendation fallback_items mood' occasion'
        = Some emergency →
      ∃ c, confidence_score rec = Some c
           ∧ confidence_score emergency = Some 0.5%float
           ∧ PrimFloat.leb 0.6 c = true
           ∧ PrimFloat.ltb 0.5 c = true.
Proof.
  assert (∀ its : list ItemDict, its ≠ [] →
            PrimFloat.leb 0.6 (_calculate_confidence_score its mood occasion)
              = true
            ∧ PrimFloat.ltb 0.5
                (_calculate_confidence_score its mood occasion) = true)
    as Hbase.
  { intros its Hits.
    destruct (confidence_values its mood occasion Hits)
      as ([] & [] & [] & ->); by vm_compute. }
  intros Hne. split; [by apply Hbase|].
  intros clothing_items weather rec fallback_items mood' occasion' emergency
    Hrec Hem.
  assert (confidence_score emergency = Some 0.5%float) as Hc.
  { unfold _create_emergency_recommendation in Hem.
    destruct fallback_items; [done|]. by injection Hem as <-. }
  unfold _create_outfit_recommendation in Hrec.
  destruct clothing_items; [done|].
  destruct (select_outfit_items _ _ _) as [chosen|]; [|done].
  destruct (item_view <$> chosen) as [|view views] eqn:Hviews; [done|].
  injection Hrec as <-. simpl.
  destruct (Hbase (view :: views)) as [Hge Hgt]; [done|]. eauto.
Qed.

Lemma confidence_at_least_base_witness :
  PrimFloat.leb 0.6
    (_calculate_confidence_score
       [item_view (plain_item "1" "shirt" "red")] "relaxed" "casual")
    = true.
Proof.
  refine (proj1 (confidence_at_least_base
                   [item_view (plain_item "1" "shirt" "red")]
                   "relaxed" "casual" _)).
  discriminate.
Defined.

End Confidence.

(** ** Deduplication *)

Section Deduplication.

Lemma res_ids_option (its : list ItemDict) :
  match mapM (M:=res) (λ item, match d_item_id item with
                               | Some i => Ok i
                               | None => Raise
                               end) its with
  | Ok ids => Some ids
  | Raise => None
  end = mapM d_item_id its.
Proof.
  induction its as [|item its IH]; [done|]. simpl.
  destruct (d_item_id item); simpl; [|done].
  rewrite <- IH. destruct (mapM (M:=res) _ its); reflexivity.
Qed.

(** The signature is the sorted list of the item ids. *)
Lemma signature_of_sorted_ids rec :
  signature_of rec = merge_sort String.le <$> item_ids rec.
Proof.
  unfold signature_of, combo_signature, item_ids.
  destruct (items rec) as [its|]; [|done]. simpl.
  rewrite <- res_ids_option. destruct (mapM (M:=res) _ its); reflexivity.
Qed.

Lemma signature_of_None rec : signature_of rec = None ↔ malformed rec.
Proof.
  unfold signature_of, malformed.
  by destruct (combo_signature rec).
Qed.

(** Two candidates with the same items in any order have the same
    signature. *)
Lemma signature_order_independent (ids ids' : list string) :
  ids ≡ₚ ids' → merge_sort String.le ids = merge_sort String.le ids'.
Proof.
  intros Hperm. apply (Sorted_unique String.le).
  - apply Sorted_merge_sort, _.
  - apply Sorted_merge_sort, _.
  - by rewrite !merge_sort_Permutation.
Qed.

Lemma signatures_snoc recs rec :
  signatures (recs ++ [rec])
  = signatures recs ++ match signature_of rec with
                       | Some signature => [signature]
                       | None => []
                       end.
Proof.
  unfold signatures. rewrite omap_app. simpl.
  by destruct (signature_of rec).
Qed.

(** The set [seen_combinations] after the loop has gone through
    [recs]. *)
Lemma dedup_seen recs :
  (foldl dedup_step (∅, []) recs).1 = list_to_set (signatures recs).
Proof.
  induction recs as [|rec recs IH] using rev_ind; [done|].
  rewrite foldl_snoc, signatures_snoc, list_to_set_app_L, <- IH.
  destruct (foldl dedup_step (∅, []) recs) as [seen unique]. simpl.
  unfold signature_of. destruct (combo_signature rec) as [signature|];
    simpl; [|set_solver].
  case_bool_decide; simpl; set_solver.
Qed.

(** The loop one candidate further. *)
Lemma dedup_snoc recs rec :
  _deduplicate_recommendations (recs ++ [rec])
  = _deduplicate_recommendations recs
    ++ match signature_of rec with
       | None => [rec]
       | Some signature =>
           if bool_decide (signature ∈ signatures recs) then [] else [rec]
       end.
Proof.
  unfold _deduplicate_recommendations. rewrite foldl_snoc.
  pose proof (dedup_seen recs) as Hseen.
  destruct (foldl dedup_step (∅, []) recs) as [seen unique].
  simpl in *. subst seen. unfold signature_of.
  destruct (combo_signature rec) as [signature|]; simpl; [|done].
  rewrite (bool_decide_ext _ (signature ∉ signatures recs))
    by (by rewrite elem_of_list_to_set).
  rewrite bool_decide_not.
  destruct (bool_decide (signature ∈ signatures recs)); simpl;
    by rewrite ?app_nil_r.
Qed.

Lemma dedup_sublist recs :
  _deduplicate_recommendations recs `sublist_of` recs.
Proof.
  induction recs as [|rec recs IH] using rev_ind; [done|].
  rewrite dedup_snoc. apply sublist_app; [done|].
  destruct (signature_of rec); [case_bool_decide|]; try done.
  apply sublist_nil_l.
Qed.

(** Every signature of the input is a signature of the output, and
    conversely. *)
Lemma dedup_same_signatures recs signature :
  signature ∈ signatures (_deduplicate_recommendations recs)
  ↔ signature ∈ signatures recs.
Proof.
  induction recs as [|rec recs IH] using rev_ind; [done|].
  rewrite dedup_snoc, signatures_snoc.
  unfold signatures at 1. rewrite omap_app. fold (signatures
    (_deduplicate_recommendations recs)).
  rewrite !elem_of_app, IH.
  destruct (signature_of rec) as [s|] eqn:Hs; simpl.
  - case_bool_decide as Hin; simpl.
    + rewrite list_elem_of_singleton, elem_of_nil. naive_solver.
    + by rewrite Hs.
  - by rewrite Hs.
Qed.

Lemma dedup_signatures_NoDup recs :
  NoDup (signatures (_deduplicate_recommendations recs)).
Proof.
  induction recs as [|rec recs IH] using rev_ind; [constructor|].
  rewrite dedup_snoc. unfold signatures. rewrite omap_app.
  apply NoDup_app. split; [done|]. split.
  - intros s Hs. apply (proj1 (dedup_same_signatures recs s)) in Hs.
    unfold signatures in Hs.
    destruct (signature_of rec) as [s'|] eqn:Hrec; simpl.
    + case_bool_decide as Hin; simpl; [apply not_elem_of_nil|].
      rewrite Hrec. rewrite list_elem_of_singleton. by intros ->.
    + rewrite Hrec. apply not_elem_of_nil.
  - destruct (signature_of rec) as [s'|] eqn:Hrec; simpl.
    + case_bool_decide; simpl; [constructor|].
      rewrite Hrec. apply NoDup_singleton.
    + rewrite Hrec. constructor.
Qed.

Lemma dedup_keeps_malformed recs :
  filter malformed (_deduplicate_recommendations recs)
  = filter malformed recs.
Proof.
  induction recs as [|rec recs IH] using rev_ind; [done|].
  rewrite dedup_snoc, !filter_app, IH. f_equal.
  destruct (signature_of rec) as [s|] eqn:Hrec; [|done].
  assert (¬ malformed rec) as Hwf.
  { rewrite <- signature_of_None. congruence. }
  case_bool_decide; by rewrite !(filter_cons_False _ rec) by done.
Qed.

(** C7: a candidate's signature is the sorted list of its item ids; the
    deduplication keeps a candidate exactly when it is malformed or no
    earlier candidate has its signature, in the original order, so the
    signatures of the output candidates are pairwise distinct and each
    signature of the input is still present; malformed candidates are
    all kept. *)
Theorem deduplication_keeps_first_occurrences
    (recommendations : list Recommendation) :
  (∀ rec ids, item_ids rec = Some ids →
     ∃ signature, signature_of rec = Some signature
                  ∧ Sorted String.le signature ∧ signature ≡ₚ ids)
  ∧ (∀ rec, item_ids rec = None ↔ malformed rec)
  ∧ _deduplicate_recommendations [] = []
  ∧ (∀ rec,
       _deduplicate_recommendations (recommendations ++ [rec])
       = _deduplicate_recommendations recommendations
         ++ match signature_of rec with
            | None => [rec]
            | Some signature =>
                if bool_decide (signature ∈ signatures recommendations)
                then [] else [rec]
            end)
  ∧ _deduplicate_recommendations recommendations
      `sublist_of` recommendations
  ∧ NoDup (signatures (_deduplicate_recommendations recommendations))
  ∧ (∀ signature,
       signature ∈ signatures (_deduplicate_recommendations recommendations)
       ↔ signature ∈ signatures recommendations)
  ∧ filter malformed (_deduplicate_recommendations recommendations)
    = filter malformed recommendations.
Proof.
  split_and!.
  - intros rec ids Hids. exists (merge_sort String.le ids).
    rewrite signature_of_sorted_ids, Hids. split_and!; [done|..].
    + apply Sorted_merge_sort, _.
    + apply merge_sort_Permutation.
  - intros rec. rewrite <- signature_of_None, signature_of_sorted_ids.
    by destruct (item_ids rec).
  - done.
  - apply dedup_snoc.
  - apply dedup_sublist.
  - apply dedup_signatures_NoDup.
  - apply dedup_same_signatures.
  - apply dedup_keeps_malformed.
Qed.

Lemma deduplication_keeps_first_occurrences_witness :
  ∃ signature,
    signature_of (candidate_of [Some "b"; Some "a"]) = Some signature
    ∧ Sorted String.le signature ∧ signature ≡ₚ ["b"; "a"].
Proof.
  exact (proj1 (deduplication_keeps_first_occurrences [])
           (candidate_of [Some "b"; Some "a"]) ["b"; "a"] eq_refl).
Defined.

(** A run of the loop: the second candidate repeats the first one's
    items in another order and is dropped; the malformed ones stay. *)
Example deduplication_run :
  _deduplicate_recommendations
    [candidate_of [Some "a"; Some "b"]; candidate_of [None];
     candidate_of [Some "b"; Some "a"]; candidate_of [None];
     candidate_of [Some "c"]]
  = [candidate_of [Some "a"; Some "b"]; candidate_of [None];
     candidate_of [None]; candidate_of [Some "c"]].
Proof. reflexivity. Qed.

End Deduplication.

(** ** The orchestrator *)

Section Pipeline.

Variable shuffle : nat → list ClothingItem → list ClothingItem.

Lemma Forall_of_sublist {A} (P : A → Prop) (l k : list A) :
  l `sublist_of` k → Forall P k → Forall P l.
Proof.
  rewrite !Forall_forall. intros Hsub Hk x Hx.
  eapply Hk, elem_of_sublist; done.
Qed.

Lemma slice_to_Forall {A} (P : A → Prop) (l : list A) (n : Z) :
  Forall P l → Forall P (slice_to l n).
Proof. intros Hl. unfold slice_to. case_match; by apply Forall_take. Qed.

Lemma insert_desc_Forall (P : Recommendation → Prop) rec sorted :
  P rec → Forall P sorted → Forall P (insert_desc rec sorted).
Proof.
  intros Hrec. induction 1 as [|r rest Hr Hrest IH]; simpl.
  - by repeat constructor.
  - case_match; repeat constructor; done.
Qed.

Lemma sorted_desc_Forall (P : Recommendation → Prop) recs :
  Forall P recs → Forall P (sorted_desc recs).
Proof.
  induction 1 as [|r rest Hr Hrest IH]; simpl; [constructor|].
  by apply insert_desc_Forall.
Qed.

Lemma create_outfit_built clothing_items mood occasion weather rec :
  _create_outfit_recommendation clothing_items mood occasion weather
    = Some rec →
  built_by_engine rec.
Proof.
  unfold _create_outfit_recommendation.
  destruct clothing_items; [done|].
  destruct (select_outfit_items _ _ _) as [chosen|]; [|done].
  destruct (item_view <$> chosen) as [|view views] eqn:Hviews; [done|].
  intros [= <-]. exists (view :: views). simpl. auto.
Qed.

Lemma emergency_built clothing_items mood occasion rec :
  _create_emergency_recommendation clothing_items mood occasion = Some rec →
  built_by_engine rec.
Proof.
  unfold _create_emergency_recommendation.
  destruct clothing_items as [|item rest]; [done|].
  intros [= <-]. eexists. simpl. split; [reflexivity|]. split; [|by left].
  by vm_compute.
Qed.

Lemma tag_rule_based_built rec attempt :
  built_by_engine rec → built_by_engine (tag_rule_based rec attempt).
Proof. intros (its & ? & ? & ?). by exists its. Qed.

Lemma rule_based_loop_built attempts user_clothes mood occasion weather
    num_recommendations recommendations :
  Forall built_by_engine recommendations →
  Forall built_by_engine
    (rule_based_loop shuffle attempts user_clothes mood occasion weather
       num_recommendations recommendations).
Proof.
  revert recommendations.
  induction attempts as [|attempt rest IH]; intros recs Hrecs; [done|].
  simpl.
  destruct (_create_outfit_recommendation _ _ _ _) as [outfit|] eqn:Hout;
    [|by apply IH].
  assert (Forall built_by_engine (recs ++ [tag_rule_based outfit attempt])).
  { apply Forall_app. split; [done|]. repeat constructor.
    eapply tag_rule_based_built, create_outfit_built, Hout. }
  case_match; [done|by apply IH].
Qed.

(** Ranking a candidate built by the engine never raises, and gives it
    a final score within [0,1]. *)
Lemma score_one_built preferred_colors rec :
  built_by_engine rec →
  ∃ rec', score_one preferred_colors rec = Ok rec'
          ∧ scores_in_unit rec' ∧ built_by_engine rec'.
Proof.
  intros (its & Hits & Hne & Hconf).
  assert (∃ c, confidence_score rec = Some c ∧ in_unit c
               ∧ ∀ bonus ai : bool,
                   in_unit (fmin (let s := if bonus then (c + 0.1)%float
                                           else c in
                                  if ai then (s + 0.05)%float else s) 1.0))
    as (c & Hc & Hcu & Hfinal).
  { destruct Hconf as [Hc|Hc].
    - exists 0.5%float. split; [done|]. split; [by vm_compute|].
      intros [] []; by vm_compute.
    - eexists. split; [exact Hc|]. split; [apply confidence_in_unit|].
      destruct (confidence_values its (mood rec) (occasion rec) Hne)
        as ([] & [] & [] & ->); intros [] []; by vm_compute. }
  unfold score_one. rewrite Hc, Hits. simpl.
  destruct preferred_colors as [preferred|]; simpl.
  - destruct (existsb _ _); simpl;
      destruct (bool_decide (recommendation_method rec = Some "ai_enhanced"));
      (eexists; split; [reflexivity|]; split;
       [ eexists c, _; simpl; split_and!; [done..|];
         first [ apply (Hfinal true true) | apply (Hfinal true false)
               | apply (Hfinal false true) | apply (Hfinal false false) ]
       | by exists its ]).
  - destruct (bool_decide (recommendation_method rec = Some "ai_enhanced"));
      (eexists; split; [reflexivity|]; split;
       [ eexists c, _; simpl; split_and!; [done..|];
         first [ apply (Hfinal false true) | apply (Hfinal false false) ]
       | by exists its ]).
Qed.

Lemma score_all_built preferred_colors recs :
  Forall built_by_engine recs →
  ∃ scored, mapM (score_one preferred_colors) recs = Ok scored
            ∧ Forall scores_in_unit scored.
Proof.
  induction 1 as [|rec recs Hrec Hrecs (scored & Hmap & Hall)].
  - by exists [].
  - destruct (score_one_built preferred_colors rec Hrec)
      as (rec' & Hone & Hunit & _).
    exists (rec' :: scored). simpl. rewrite Hone. simpl. rewrite Hmap.
    split; [reflexivity|by constructor].
Qed.

Lemma score_recommendations_built recs preferred_colors mood occasion :
  Forall built_by_engine recs →
  ∃ ranked,
    _score_recommendations recs preferred_colors mood occasion = Ok ranked
    ∧ Forall scores_in_unit ranked.
Proof.
  intros (scored & Hmap & Hall)%(score_all_built preferred_colors).
  exists (sorted_desc scored). unfold _score_recommendations.
  rewrite Hmap. split; [reflexivity|by apply sorted_desc_Forall].
Qed.

(** The body of [generate_outfit_recommendations] never raises. *)
Lemma generate_body_ranked query preferred_colors mood occasion weather
    num_recommendations :
  ∃ final,
    generate_body shuffle query preferred_colors mood occasion weather
      num_recommendations = Ok final
    ∧ Forall scores_in_unit final.
Proof.
  unfold generate_body.
  destruct (_get_user_clothing query) as [|item rest] eqn:Hclothes;
    [by exists []|].
  pose proof (rule_based_loop_built
                (seq 0 (Z.to_nat (num_recommendations * 2)))
                (item :: rest) mood occasion weather num_recommendations
                [] ltac:(constructor)) as Hrule.
  fold (_generate_rule_based_recommendations shuffle (item :: rest) mood
          occasion weather num_recommendations) in Hrule.
  set (recommendations :=
         match [] ++ _generate_rule_based_recommendations shuffle
                       (item :: rest) mood occasion weather
                       num_recommendations with
         | [] =>
             match _create_emergency_recommendation (item :: rest) mood
                     occasion with
             | Some emergency_rec => [emergency_rec]
             | None => [] ++ _generate_rule_based_recommendations shuffle
                               (item :: rest) mood occasion weather
                               num_recommendations
             end
         | _ :: _ => [] ++ _generate_rule_based_recommendations shuffle
                             (item :: rest) mood occasion weather
                             num_recommendations
         end).
  assert (Forall built_by_engine recommendations) as Hrecs.
  { subst recommendations. cbn [app].
    destruct (_generate_rule_based_recommendations _ _ _ _ _ _);
      [|done].
    destruct (_create_emergency_recommendation (item :: rest) mood occasion)
      eqn:Hem; [|done].
    repeat constructor. by eapply emergency_built. }
  destruct (score_recommendations_built
              (_deduplicate_recommendations recommendations)
              preferred_colors mood occasion) as (ranked & Hranked & Hall).
  { eapply Forall_of_sublist; [apply dedup_sublist|done]. }
  exists (slice_to ranked num_recommendations). rewrite Hranked.
  split; [reflexivity|by apply slice_to_Forall].
Qed.

(** C6: the confidence score computed for an item list of any length
    lies within [0,1]; ranking a candidate built by the engine gives it
    a final score within [0,1]; and every candidate returned by
    [generate_outfit_recommendations] carries both scores, each within
    [0,1]. *)
Theorem scores_within_unit_interval :
  (∀ outfit_items mood occasion,
     in_unit (_calculate_confidence_score outfit_items mood occasion))
  ∧ (∀ preferred_colors rec,
       built_by_engine rec →
       ∃ rec', score_one preferred_colors rec = Ok rec'
               ∧ scores_in_unit rec')
  ∧ (∀ query preferred_colors mood occasion weather num_recommendations,
       ∃ final,
         generate_outfit_recommendations shuffle query preferred_colors
           mood occasion weather num_recommendations = Ok final
         ∧ Forall scores_in_unit final).
Proof.
  split_and!.
  - apply confidence_in_unit.
  - intros preferred_colors rec Hrec.
    destruct (score_one_built preferred_colors rec Hrec)
      as (rec' & ? & ? & _). eauto.
  - intros query preferred_colors mood occasion weather num_recommendations.
    destruct (generate_body_ranked query preferred_colors mood occasion
                weather num_recommendations) as (final & Hbody & Hall).
    exists final. unfold generate_outfit_recommendations.
    by rewrite Hbody.
Qed.

(** C9: when the user's collection is empty, or cannot be fetched,
    [generate_outfit_recommendations] returns the empty list and does
    not raise. *)
Theorem empty_collection_gives_empty_result query preferred_colors
    mood occasion weather num_recommendations :
  _get_user_clothing query = [] →
  generate_outfit_recommendations shuffle query preferred_colors mood
    occasion weather num_recommendations = Ok [].
Proof.
  intros Hempty.
  unfold generate_outfit_recommendations, generate_body.
  by rewrite Hempty.
Qed.

End Pipeline.

Lemma scores_within_unit_interval_witness :
  ∃ rec',
    score_one (Some ["red"]) (candidate_of [Some "a"]) = Ok rec'
    ∧ scores_in_unit rec'.
Proof.
  refine (proj1 (proj2 (scores_within_unit_interval (λ _ l, l)))
            (Some ["red"]) (candidate_of [Some "a"]) _).
  eexists. split; [reflexivity|]. split; [discriminate|by left].
Defined.

Lemma empty_collection_gives_empty_result_witness :
  generate_outfit_recommendations (λ _ l, l) (Ok []) None "relaxed" "casual"
    (Some "mild") 3 = Ok []
  ∧ generate_outfit_recommendations (λ _ l, l) Raise None "relaxed" "casual"
      (Some "mild") 3 = Ok [].
Proof.
  split.
  - exact (empty_collection_gives_empty_result (λ _ l, l) (Ok []) None
             "relaxed" "casual" (Some "mild") 3 eq_refl).
  - exact (empty_collection_gives_empty_result (λ _ l, l) Raise None
             "relaxed" "casual" (Some "mild") 3 eq_refl).
Defined.

(** ** The end-to-end scenario *)

Section Scenario.

(** C8: the three black items, in whatever order the shuffle leaves them,
    all pass the occasion, mood and weather filters for professional /
    work / mild (their color is in the work color set); the outfit that
    [_build_complete_outfit] assembles from them holds all three: the
    top, the shoes and, from the accessories slot, the bottom; the
    candidate shows exactly these three; their colors coordinate; and
    the confidence score is at least 0.8. *)
Theorem scenario_black_work_outfit (id1 id2 id3 : string)
    (clothing_items : list ClothingItem) :
  clothing_items ≡ₚ scenario_items id1 id2 id3 →
  (∃ requirements,
      occasion_requirements !! "work" = Some requirements
      ∧ Forall (λ item,
                  lower_in (color item) (occasion_colors requirements)
                  = true) clothing_items)
  ∧ _filter_by_occasion clothing_items "work" = clothing_items
  ∧ _filter_by_mood clothing_items "professional" = clothing_items
  ∧ _filter_by_weather clothing_items (Some "mild") = clothing_items
  ∧ apply_filters clothing_items "professional" "work" (Some "mild")
    = clothing_items
  ∧ _build_complete_outfit
      (_categorize_items
         (apply_filters clothing_items "professional" "work" (Some "mild")))
      "professional" "work"
    = Ok [scenario_item id1 "top" 3; scenario_item id3 "shoes" 2;
          scenario_item id2 "bottom" 3]
  ∧ ∃ rec its c,
      _create_outfit_recommendation clothing_items "professional" "work"
        (Some "mild") = Some rec
      ∧ items rec = Some its
      ∧ its = item_view <$> [scenario_item id1 "top" 3;
                             scenario_item id3 "shoes" 2;
                             scenario_item id2 "bottom" 3]
      ∧ length its = 3%nat
      ∧ Forall (λ item, item_view item ∈ its) (scenario_items id1 id2 id3)
      ∧ _colors_coordinate (d_color <$> its) = true
      ∧ confidence_score rec = Some c
      ∧ PrimFloat.leb 0.8 c = true.
Proof.
  intros Hperm. symmetry in Hperm.
  apply permutations_Permutation in Hperm. cbn in Hperm.
  repeat (apply elem_of_cons in Hperm as [-> | Hperm];
          [ split;
            [ eexists; split; [reflexivity|]; repeat constructor
            | do 5 (split; [reflexivity|]);
              eexists _, _, _; split; [reflexivity|];
              split; [reflexivity|]; split; [reflexivity|];
              split; [reflexivity|];
              split; [repeat constructor|];
              split; [reflexivity|]; split; reflexivity ]
          | ]).
  by apply elem_of_nil in Hperm.
Qed.

Lemma scenario_black_work_outfit_witness :
  apply_filters
    [scenario_item "3" "shoes" 2; scenario_item "1" "top" 3;
     scenario_item "2" "bottom" 3]
    "professional" "work" (Some "mild")
  = [scenario_item "3" "shoes" 2; scenario_item "1" "top" 3;
     scenario_item "2" "bottom" 3].
Proof.
  refine (proj1 (proj2 (proj2 (proj2 (proj2
            (scenario_black_work_outfit "1" "2" "3"
               [scenario_item "3" "shoes" 2; scenario_item "1" "top" 3;
                scenario_item "2" "bottom" 3] _)))))).
  apply (Permutation_cons_append
           [scenario_item "1" "top" 3; scenario_item "2" "bottom" 3]).
Defined.

(** The scenario run through the whole pipeline with a shuffle that
    leaves the order alone and no color preference: one candidate comes
    back, ranked with the final score 0.8999999999999999. *)
Example scenario_end_to_end :
  ∃ rec,
    generate_outfit_recommendations (λ _ l, l)
      (Ok (scenario_items "1" "2" "3")) None "professional" "work"
      (Some "mild") 3 = Ok [rec]
    ∧ recommendation_method rec = Some "rule_based"
    ∧ confidence_score rec = Some (0.6 + 0.1 + 0.1 + 0.1)%float
    ∧ final_score rec = Some (0.6 + 0.1 + 0.1 + 0.1)%float.
Proof. eexists. split; [reflexivity|]. repeat split; reflexivity. Qed.

End Scenario.

(** * Further properties *)

(** ** Matching colors *)

Section ColorMatching.

Lemma color_wheel_lookup (name : string) (hsv : Z * Z * Z) :
  (name, hsv) ∈ color_wheel_items ↔ color_wheel !! name = Some hsv.
Proof.
  apply elem_of_list_to_map.
  apply (bool_decide_unpack _). by vm_compute.
Qed.

(** A name is returned by a rule exactly when it is on the wheel and its
    hue passes the rule's test. *)
Lemma wheel_names_where_spec (test : string → Z → bool) (name : string) :
  name ∈ wheel_names_where test
  ↔ ∃ h, hue name = Some h ∧ test name h = true.
Proof.
  unfold wheel_names_where, hue. rewrite list_elem_of_fmap. split.
  - intros ([name' hsv] & -> & Hin). apply list_elem_of_filter in Hin
      as [Htest Hin]. simpl in *.
    apply color_wheel_lookup in Hin. rewrite Hin. eauto.
  - intros (h & Hh & Htest).
    apply fmap_Some in Hh as (hsv & Hlk & ->).
    exists (name, hsv). split; [done|].
    apply list_elem_of_filter. split; [done|]. by apply color_wheel_lookup.
Qed.

Lemma hue_is_Some (name : string) :
  is_Some (hue name) ↔ is_Some (color_wheel !! name).
Proof. unfold hue. by rewrite fmap_is_Some. Qed.

(** The two facts that let [lia] reason about [e `mod` 360]. *)
Ltac mod360 e :=
  pose proof (Z.mod_pos_bound e 360 ltac:(lia));
  pose proof (Z.div_mod e 360 ltac:(lia)).

(** What [find_matching_colors] computes for a base color of the wheel
    and each of the four harmony types. *)
Lemma find_matching_known (base : string) (hb : Z) :
  hue base = Some hb →
  find_matching_colors base "complementary"
    = Some (wheel_names_where
              (λ _ h, Z.abs (h - (hb + 180) `mod` 360) <? 30))
  ∧ find_matching_colors base "analogous"
    = Some (wheel_names_where
              (λ name h, (Z.abs (h - hb) <? 60) && bool_decide (name ≠ base)))
  ∧ find_matching_colors base "triadic"
    = Some (wheel_names_where
              (λ _ h, existsb (λ t, Z.abs (h - t) <? 30)
                        [(hb + 120) `mod` 360; (hb + 240) `mod` 360]))
  ∧ find_matching_colors base "monochromatic"
    = Some (wheel_names_where (λ _ h, Z.abs (h - hb) <? 15)).
Proof.
  intros Hh. unfold find_matching_colors.
  destruct (proj1 (hue_is_Some base)) as [hsv ->]; [by rewrite Hh|].
  repeat split.
  - change (_complementary_colors base = Some (wheel_names_where
              (λ _ h, Z.abs (h - (hb + 180) `mod` 360) <? 30))).
    unfold _complementary_colors. by rewrite Hh.
  - change (_analogous_colors base = Some (wheel_names_where
              (λ name h, (Z.abs (h - hb) <? 60)
                         && bool_decide (name ≠ base)))).
    unfold _analogous_colors. by rewrite Hh.
  - change (_triadic_colors base = Some (wheel_names_where
              (λ _ h, existsb (λ t, Z.abs (h - t) <? 30)
                        [(hb + 120) `mod` 360; (hb + 240) `mod` 360]))).
    unfold _triadic_colors. by rewrite Hh.
  - change (_monochromatic_colors base
            = Some (wheel_names_where (λ _ h, Z.abs (h - hb) <? 15))).
    unfold _monochromatic_colors. by rewrite Hh.
Qed.

Lemma find_matching_unknown (base harmony_type : string) :
  color_wheel !! base = None →
  find_matching_colors base harmony_type = Some [].
Proof. intros Hb. unfold find_matching_colors. by rewrite Hb. Qed.

Lemma harmony_rules_keys (harmony_type : string)
    (rule : string → option (list string)) :
  color_harmony_rules !! harmony_type = Some rule →
  harmony_type ∈ ["complementary"; "analogous"; "triadic"; "monochromatic"].
Proof.
  intros Hlk%elem_of_list_to_map_2.
  repeat (apply elem_of_cons in Hlk as [Hlk | Hlk];
          [ injection Hlk as -> _; set_solver | ]).
  by apply elem_of_nil in Hlk.
Qed.

(** X1: [find_matching_colors] never raises; it returns the empty list
    for a base color that is not on the wheel and for a harmony type that
    is not one of the four rules; and every name it returns is a color of
    the wheel. *)
Theorem find_matching_colors_total (base harmony_type : string) :
  ∃ matches,
    find_matching_colors base harmony_type = Some matches
    ∧ (∀ name, name ∈ matches → is_Some (color_wheel !! name))
    ∧ (color_wheel !! base = None → matches = [])
    ∧ (harmony_type
         ∉ ["complementary"; "analogous"; "triadic"; "monochromatic"] →
       matches = []).
Proof.
  destruct (color_wheel !! base) as [hsv|] eqn:Hbase.
  - assert (hue base = Some hsv.1.1) as Hh by (unfold hue; by rewrite Hbase).
    destruct (find_matching_known base _ Hh) as (Hc & Ha & Ht & Hm).
    destruct (color_harmony_rules !! harmony_type) as [rule|] eqn:Hrule.
    + assert (∃ test, find_matching_colors base harmony_type
                      = Some (wheel_names_where test)) as [test Htest].
      { apply harmony_rules_keys in Hrule.
        repeat (apply elem_of_cons in Hrule as [-> | Hrule]; [eauto|]).
        by apply elem_of_nil in Hrule. }
      eexists. split; [exact Htest|]. split_and!.
      * intros name (h & Hn & _)%wheel_names_where_spec.
        apply hue_is_Some. by rewrite Hn.
      * done.
      * intros Hnot. by apply harmony_rules_keys in Hrule.
    + exists []. unfold find_matching_colors. rewrite Hbase, Hrule.
      split_and!; try done. by intros name ?%elem_of_nil.
  - exists []. rewrite find_matching_unknown by done.
    split_and!; try done. by intros name ?%elem_of_nil.
Qed.

Lemma find_matching_colors_total_witness :
  find_matching_colors "teal" "analogous" = Some []
  ∧ find_matching_colors "red" "split" = Some [].
Proof.
  split.
  - destruct (find_matching_colors_total "teal" "analogous")
      as (matches & -> & _ & Hbase & _).
    by rewrite Hbase.
  - destruct (find_matching_colors_total "red" "split")
      as (matches & -> & _ & _ & Htype).
    rewrite Htype; [done|]. by apply (bool_decide_unpack _).
Defined.

(** X2: a complementary match lies more than 150 degrees from the base
    hue, and a triadic match more than 90 degrees, the hues being compared
    as plain numbers; so neither list ever holds the base color. *)
Theorem complementary_and_triadic_exclude_base (base name : string)
    (matches : list string) :
  name ∈ matches →
  (find_matching_colors base "complementary" = Some matches →
   ∃ hb h, hue base = Some hb ∧ hue name = Some h
           ∧ 150 < Z.abs (h - hb) ∧ name ≠ base)
  ∧ (find_matching_colors base "triadic" = Some matches →
     ∃ hb h, hue base = Some hb ∧ hue name = Some h
             ∧ 90 < Z.abs (h - hb) ∧ name ≠ base).
Proof.
  intros Hin.
  destruct (hue base) as [hb|] eqn:Hb.
  - destruct (find_matching_known base hb Hb) as (Hc & _ & Ht & _).
    pose proof (hue_range _ _ Hb) as Hrange.
    split; intros Hfind.
    + rewrite Hc in Hfind. injection Hfind as <-.
      apply wheel_names_where_spec in Hin as (h & Hn & Htest).
      apply Z.ltb_lt in Htest. mod360 (hb + 180).
      assert (150 < Z.abs (h - hb)) by lia.
      exists hb, h. split_and!; try done.
      intros ->. rewrite Hb in Hn. injection Hn as <-. lia.
    + rewrite Ht in Hfind. injection Hfind as <-.
      apply wheel_names_where_spec in Hin as (h & Hn & Htest).
      simpl in Htest. rewrite orb_false_r in Htest.
      mod360 (hb + 120). mod360 (hb + 240).
      apply orb_true_iff in Htest as [Htest|Htest]; apply Z.ltb_lt in Htest.
      all: assert (90 < Z.abs (h - hb)) by lia.
      all: exists hb, h; split_and!; try done.
      all: intros ->; rewrite Hb in Hn; injection Hn as <-; lia.
  - assert (color_wheel !! base = None) as Hnone.
    { apply eq_None_not_Some. rewrite <- hue_is_Some, Hb. by intros [? [=]]. }
    split; intros Hfind; rewrite find_matching_unknown in Hfind by done;
      injection Hfind as <-; by apply elem_of_nil in Hin.
Qed.

Lemma complementary_and_triadic_exclude_base_witness :
  ∃ hb h, hue "blue" = Some hb ∧ hue "yellow" = Some h
          ∧ 150 < Z.abs (h - hb) ∧ "yellow" ≠ "blue".
Proof.
  refine (proj1 (complementary_and_triadic_exclude_base
                   "blue" "yellow" ["yellow"] _) eq_refl).
  apply list_elem_of_here.
Defined.

Lemma analogous_spec (base name : string) (matches : list string) :
  find_matching_colors base "analogous" = Some matches →
  name ∈ matches
  ↔ ∃ hb h, hue base = Some hb ∧ hue name = Some h
            ∧ Z.abs (h - hb) < 60 ∧ name ≠ base.
Proof.
  intros Hfind. destruct (hue base) as [hb|] eqn:Hb.
  - destruct (find_matching_known base hb Hb) as (_ & Ha & _ & _).
    rewrite Ha in Hfind. injection Hfind as <-.
    rewrite wheel_names_where_spec. split.
    + intros (h & Hn & Htest). apply andb_true_iff in Htest as [Hd Hne].
      apply Z.ltb_lt in Hd. apply bool_decide_eq_true in Hne. eauto 10.
    + intros (hb' & h & [= <-] & Hn & Hd & Hne). exists h. split; [done|].
      apply andb_true_iff. split; [by apply Z.ltb_lt|].
      by apply bool_decide_eq_true.
  - assert (color_wheel !! base = None) as Hnone.
    { apply eq_None_not_Some. rewrite <- hue_is_Some, Hb. by intros [? [=]]. }
    rewrite find_matching_unknown in Hfind by done. injection Hfind as <-.
    split; [by intros ?%elem_of_nil|]. by intros (? & ? & [=] & _).
Qed.

(** X3: being an analogous match is a symmetric relation between colors,
    and no color is an analogous match of itself. *)
Theorem analogous_symmetric (color1 color2 : string)
    (matches1 matches2 : list string) :
  find_matching_colors color1 "analogous" = Some matches1 →
  find_matching_colors color2 "analogous" = Some matches2 →
  (color2 ∈ matches1 ↔ color1 ∈ matches2) ∧ color1 ∉ matches1.
Proof.
  intros H1 H2.
  rewrite (analogous_spec color1 color2 _ H1),
    (analogous_spec color2 color1 _ H2), (analogous_spec color1 color1 _ H1).
  split; [split|].
  - intros (h1 & h2 & ? & ? & ? & ?). exists h2, h1.
    split_and!; [done..|lia|done].
  - intros (h2 & h1 & ? & ? & ? & ?). exists h1, h2.
    split_and!; [done..|lia|done].
  - by intros (? & ? & _ & _ & _ & ?).
Qed.

Lemma analogous_symmetric_witness :
  ("orange" ∈ ["orange"; "brown"; "black"; "white"; "gray"; "beige"]
   ↔ "red" ∈ ["red"; "yellow"; "brown"; "black"; "white"; "gray"; "beige"])
  ∧ "red" ∉ ["orange"; "brown"; "black"; "white"; "gray"; "beige"].
Proof.
  exact (analogous_symmetric "red" "orange" _ _ eq_refl eq_refl).
Defined.

(** X4: for a color of the wheel the monochromatic matches hold the
    color itself, and every other monochromatic match is also an
    analogous match. *)
Theorem monochromatic_within_analogous (base : string)
    (monochromatic analogous : list string) :
  is_Some (color_wheel !! base) →
  find_matching_colors base "monochromatic" = Some monochromatic →
  find_matching_colors base "analogous" = Some analogous →
  base ∈ monochromatic
  ∧ ∀ name, name ∈ monochromatic → name = base ∨ name ∈ analogous.
Proof.
  intros [hb Hb]%hue_is_Some Hm Ha.
  destruct (find_matching_known base hb Hb) as (_ & _ & _ & Hm').
  rewrite Hm' in Hm. injection Hm as <-. split.
  - apply wheel_names_where_spec. exists hb. split; [done|].
    apply Z.ltb_lt. lia.
  - intros name (h & Hn & Htest)%wheel_names_where_spec.
    apply Z.ltb_lt in Htest.
    destruct (decide (name = base)) as [->|Hne]; [by left|right].
    apply (analogous_spec base name _ Ha). exists hb, h.
    split_and!; [done..|lia|done].
Qed.

Lemma monochromatic_within_analogous_witness :
  "navy" ∈ ["blue"; "navy"]
  ∧ ∀ name, name ∈ ["blue"; "navy"] →
            name = "navy" ∨ name ∈ ["blue"; "purple"].
Proof.
  refine (monochromatic_within_analogous "navy" _ _ _ eq_refl eq_refl).
  by eexists.
Defined.

End ColorMatching.

(** ** Harmony of a list of colors *)

Section SetHarmony.

Lemma harmony_inner_loop (colors : list string) (i : nat) (x : string)
    (before later : list string) (state : option (float * Z)) :
  colors !! i = Some x → colors = before ++ later →
  foldl (λ state j, state ≫= harmony_step colors i j) state
    (seq (length before) (length later))
  = harmony_against x later state.
Proof.
  intros Hi. revert before state.
  induction later as [|y later IH]; intros before state Hcolors; [done|].
  simpl. rewrite <- (IH (before ++ [y])).
  - rewrite length_app. simpl. rewrite Nat.add_1_r. f_equal.
    destruct state as [st|]; [|done]. simpl.
    unfold harmony_step. rewrite Hi, Hcolors, list_lookup_middle by done.
    done.
  - by rewrite <- app_assoc.
Qed.

Lemma harmony_outer_loop (colors before after : list string)
    (state : option (float * Z)) :
  colors = before ++ after →
  foldl (λ state i,
           foldl (λ state j, state ≫= harmony_step colors i j) state
             (seq (i + 1) (length colors - (i + 1))))
    state (seq (length before) (length after))
  = harmony_pairs after state.
Proof.
  revert before state.
  induction after as [|x after IH]; intros before state Hcolors; [done|].
  simpl. rewrite <- (IH (before ++ [x])).
  - rewrite length_app. simpl. rewrite Nat.add_1_r. f_equal.
    rewrite <- (harmony_inner_loop colors (length before) x
                  (before ++ [x]) after).
    + rewrite length_app. simpl. rewrite Nat.add_1_r. do 2 f_equal.
      rewrite Hcolors at 1. rewrite length_app. simpl. lia.
    + by rewrite Hcolors, list_lookup_middle.
    + by rewrite Hcolors, <- app_assoc.
  - by rewrite Hcolors, <- app_assoc.
Qed.

(** The two index loops visit each color against the ones after it. *)
Lemma harmony_loops_pairs (colors : list string) :
  harmony_loops colors = harmony_pairs colors (Some (0.0%float, 0)).
Proof. apply (harmony_outer_loop colors [] colors). done. Qed.

Lemma harmony_pair_unknown (x y : string) (state : float * Z) :
  known x = false ∨ known y = false → harmony_pair x y state = Some state.
Proof.
  unfold harmony_pair, known. by intros [-> | ->]; rewrite ?andb_false_r.
Qed.

Lemma harmony_pair_known (x y : string) (state : float * Z) :
  known x = true → known y = true →
  ∃ score, _calculate_color_pair_harmony x y = Some score
           ∧ harmony_pair x y state
             = Some ((state.1 + score)%float, state.2 + 1).
Proof.
  unfold harmony_pair, known. intros Hx Hy. rewrite Hx, Hy. simpl.
  apply bool_decide_eq_true, hue_is_Some in Hx as [hx Hx].
  apply bool_decide_eq_true, hue_is_Some in Hy as [hy Hy].
  rewrite (pair_harmony_unfold x y hx hy Hx Hy). eauto.
Qed.

Lemma harmony_against_known (x : string) (later : list string)
    (state : option (float * Z)) :
  harmony_against x later state
  = if known x then harmony_against x (filter known later) state else state.
Proof.
  unfold harmony_against. revert state.
  induction later as [|y later IH]; intros state; simpl.
  - by destruct (known x).
  - rewrite IH. destruct (known x) eqn:Hx.
    + destruct (known y) eqn:Hy.
      * by rewrite (filter_cons_True _ y) by (by apply Is_true_true).
      * rewrite (filter_cons_False _ y) by (by apply Is_true_false).
        destruct state as [st|]; [|done]. simpl.
        by rewrite harmony_pair_unknown by auto.
    + destruct state as [st|]; [|done]. simpl.
      by rewrite harmony_pair_unknown by auto.
Qed.

(** Colors that are not on the wheel leave the two sums untouched. *)
Lemma harmony_pairs_known (colors : list string)
    (state : option (float * Z)) :
  harmony_pairs colors state = harmony_pairs (filter known colors) state.
Proof.
  revert state. induction colors as [|x colors IH]; intros state; [done|].
  simpl. rewrite IH, harmony_against_known.
  destruct (known x) eqn:Hx.
  - rewrite (filter_cons_True _ x) by (by apply Is_true_true). simpl.
    rewrite (harmony_against_known x (filter known colors)), Hx.
    by rewrite list_filter_filter_l by done.
  - by rewrite (filter_cons_False _ x) by (by apply Is_true_false).
Qed.

Lemma harmony_against_total (x : string) (later : list string)
    (state : option (float * Z)) :
  is_Some state → is_Some (harmony_against x later state).
Proof.
  unfold harmony_against. revert state.
  induction later as [|y later IH]; intros state Hs; [done|].
  simpl. apply IH. destruct Hs as [st ->]. simpl.
  destruct (known x) eqn:Hx, (known y) eqn:Hy;
    try (rewrite harmony_pair_unknown by auto; by eexists).
  destruct (harmony_pair_known x y st Hx Hy) as (score & _ & ->). by eexists.
Qed.

Lemma harmony_pairs_total (colors : list string)
    (state : option (float * Z)) :
  is_Some state → is_Some (harmony_pairs colors state).
Proof.
  revert state. induction colors as [|x colors IH]; intros state Hs; [done|].
  simpl. by apply IH, harmony_against_total.
Qed.

Lemma color_harmony_unfold (colors : list string) :
  (2 ≤ length colors)%nat →
  _calculate_color_harmony colors
  = '(harmony_score, comparisons) ←
      harmony_pairs (filter known colors) (Some (0.0%float, 0));
    Some (if 0 <? comparisons
          then (harmony_score / float_of_count comparisons)%float
          else 0.0%float).
Proof.
  intros Hlen. unfold _calculate_color_harmony.
  rewrite bool_decide_eq_false_2 by lia.
  by rewrite harmony_loops_pairs, harmony_pairs_known.
Qed.

Lemma harmony_pairs_short (colors : list string)
    (state : option (float * Z)) :
  (length colors < 2)%nat → harmony_pairs colors state = state.
Proof. destruct colors as [|x [|y colors]]; simpl; [done..|lia]. Qed.

(** X5: the harmony of a list of fewer than two colors is 1.0; that of a
    longer list holding fewer than two colors of the wheel is 0.0. *)
Theorem color_harmony_edges (colors : list string) :
  ((length colors < 2)%nat → _calculate_color_harmony colors = Some 1.0%float)
  ∧ ((2 ≤ length colors)%nat → (length (filter known colors) < 2)%nat →
     _calculate_color_harmony colors = Some 0.0%float).
Proof.
  split.
  - intros Hlen. unfold _calculate_color_harmony.
    by rewrite bool_decide_eq_true_2.
  - intros Hlen Hknown.
    by rewrite color_harmony_unfold, harmony_pairs_short.
Qed.

Lemma color_harmony_edges_witness :
  _calculate_color_harmony ["red"] = Some 1.0%float
  ∧ _calculate_color_harmony ["red"; "teal"; "lime"] = Some 0.0%float.
Proof.
  split.
  - apply (proj1 (color_harmony_edges ["red"])). simpl. lia.
  - apply (proj2 (color_harmony_edges ["red"; "teal"; "lime"]));
      vm_compute; lia.
Defined.

(** X6: [_calculate_color_harmony] never raises, and colors that are not
    on the wheel are skipped: when at least two colors of the list are on
    the wheel, the score is that of the list with the other colors
    removed. *)
Theorem color_harmony_skips_unknown (colors : list string) :
  (∃ score, _calculate_color_harmony colors = Some score)
  ∧ ((2 ≤ length (filter known colors))%nat →
     _calculate_color_harmony colors
     = _calculate_color_harmony (filter known colors)).
Proof.
  split.
  - destruct (decide (length colors < 2)%nat) as [Hlen|Hlen].
    + exists 1.0%float. by apply color_harmony_edges.
    + rewrite color_harmony_unfold by lia.
      destruct (harmony_pairs_total (filter known colors)
                  (Some (0.0%float, 0))) as [[s n] ->]; [by eexists|].
      simpl. eauto.
  - intros Hknown.
    assert (2 ≤ length colors)%nat
      by (pose proof (length_filter known colors); lia).
    rewrite !color_harmony_unfold by done.
    by rewrite list_filter_filter_l by done.
Qed.

Lemma color_harmony_skips_unknown_witness :
  _calculate_color_harmony ["red"; "teal"; "blue"; "lime"; "yellow"]
  = _calculate_color_harmony ["red"; "blue"; "yellow"].
Proof.
  apply (proj2 (color_harmony_skips_unknown
                  ["red"; "teal"; "blue"; "lime"; "yellow"])).
  vm_compute. lia.
Defined.

(** X7: when exactly two colors of the list are on the wheel, the harmony
    of the list is the pairwise harmony of those two. *)
Theorem color_harmony_of_two (colors : list string) (color1 color2 : string) :
  filter known colors = [color1; color2] →
  _calculate_color_harmony colors
  = _calculate_color_pair_harmony color1 color2.
Proof.
  intros Hknown.
  assert (color1 ∈ filter known colors ∧ color2 ∈ filter known colors)
    as [H1 H2] by (rewrite Hknown; set_solver).
  apply list_elem_of_filter in H1 as [H1%Is_true_true _].
  apply list_elem_of_filter in H2 as [H2%Is_true_true _].
  rewrite color_harmony_unfold
    by (pose proof (length_filter known colors) as Hle;
        rewrite Hknown in Hle; simpl in Hle; lia).
  rewrite Hknown. simpl.
  destruct (harmony_pair_known color1 color2 (0.0%float, 0) H1 H2)
    as (score & Hscore & ->).
  rewrite Hscore. simpl.
  apply bool_decide_eq_true, hue_is_Some in H1 as [h1 Hh1].
  apply bool_decide_eq_true, hue_is_Some in H2 as [h2 Hh2].
  rewrite (pair_harmony_unfold _ _ _ _ Hh1 Hh2) in Hscore.
  injection Hscore as <-. unfold code_pair_score.
  repeat case_match; reflexivity.
Qed.

Lemma color_harmony_of_two_witness :
  _calculate_color_harmony ["teal"; "yellow"; "lime"; "blue"]
  = _calculate_color_pair_harmony "yellow" "blue".
Proof.
  by apply (color_harmony_of_two ["teal"; "yellow"; "lime"; "blue"]).
Defined.

End SetHarmony.

(** ** Scheme and temperature *)

Section SchemeAndTemperature.

(** X8: the color scheme is decided by the number of distinct colors
    alone (none or one: monochromatic, two: complementary, three: triadic,
    more: complex), so two lists holding the same colors, in any order and
    with any repetition, get the same scheme. *)
Theorem color_scheme_by_distinct_colors (colors colors' : list string) :
  _identify_color_scheme colors
  = match size (list_to_set colors : gset string) with
    | 0%nat | 1%nat => "monochromatic"
    | 2%nat => "complementary"
    | 3%nat => "triadic"
    | _ => "complex"
    end
  ∧ ((∀ color, color ∈ colors ↔ color ∈ colors') →
     _identify_color_scheme colors = _identify_color_scheme colors').
Proof.
  assert (∀ l : list string,
            _identify_color_scheme l
            = match size (list_to_set l : gset string) with
              | 0%nat | 1%nat => "monochromatic"
              | 2%nat => "complementary"
              | 3%nat => "triadic"
              | _ => "complex"
              end) as Htable.
  { intros l. unfold _identify_color_scheme.
    destruct l as [|x [|y l]].
    - done.
    - rewrite bool_decide_eq_true_2 by (simpl; lia).
      by rewrite list_to_set_cons, list_to_set_nil, union_empty_r_L,
        size_singleton.
    - rewrite bool_decide_eq_false_2 by (simpl; lia).
      destruct (size (list_to_set (x :: y :: l) : gset string))
        as [|[|[|[|n]]]] eqn:Hsize; try done.
      apply size_empty_inv in Hsize. set_solver. }
  split; [apply Htable|].
  intros Hsame. rewrite !Htable.
  assert ((list_to_set colors : gset string) = list_to_set colors') as ->;
    [|done].
  apply set_eq. intros color. by rewrite !elem_of_list_to_set.
Qed.

Lemma color_scheme_by_distinct_colors_witness :
  _identify_color_scheme ["red"; "blue"; "red"]
  = _identify_color_scheme ["blue"; "red"].
Proof.
  apply (proj2 (color_scheme_by_distinct_colors
                  ["red"; "blue"; "red"] ["blue"; "red"])).
  intros color. set_solver.
Defined.

Lemma filter_count_relevant (P Q : string → Prop)
    `{!∀ x, Decision (P x)} `{!∀ x, Decision (Q x)} (l : list string) :
  (∀ x, P x → Q x) →
  length (filter P (filter Q l)) = length (filter P l).
Proof.
  intros HPQ. induction l as [|x l IH]; [done|].
  destruct (decide (Q x)) as [HQ|HQ].
  - rewrite (filter_cons_True Q) by done.
    destruct (decide (P x)).
    + rewrite !(filter_cons_True P) by done. simpl. by rewrite IH.
    + by rewrite !(filter_cons_False P) by done.
  - rewrite (filter_cons_False Q), (filter_cons_False P) by naive_solver.
    done.
Qed.

(** X9: the color temperature depends only on how many entries of the
    list are warm colors and how many are cool colors: reordering the
    list, or adding and removing colors that are neither, leaves it
    unchanged. *)
Theorem color_temperature_ignores_others (colors colors' : list string) :
  filter (λ color, in_list color warm_colors = true
                   ∨ in_list color cool_colors = true) colors
  ≡ₚ filter (λ color, in_list color warm_colors = true
                      ∨ in_list color cool_colors = true) colors' →
  _calculate_color_temperature colors = _calculate_color_temperature colors'.
Proof.
  intros Hperm. unfold _calculate_color_temperature.
  rewrite <- (filter_count_relevant
                (λ color, in_list color warm_colors = true)
                (λ color, in_list color warm_colors = true
                          ∨ in_list color cool_colors = true) colors)
    by auto.
  rewrite <- (filter_count_relevant
                (λ color, in_list color cool_colors = true)
                (λ color, in_list color warm_colors = true
                          ∨ in_list color cool_colors = true) colors)
    by auto.
  rewrite <- (filter_count_relevant
                (λ color, in_list color warm_colors = true)
                (λ color, in_list color warm_colors = true
                          ∨ in_list color cool_colors = true) colors')
    by auto.
  rewrite <- (filter_count_relevant
                (λ color, in_list color cool_colors = true)
                (λ color, in_list color warm_colors = true
                          ∨ in_list color cool_colors = true) colors')
    by auto.
  by rewrite (Permutation_length
                (filter_Permutation
                   (λ color, in_list color warm_colors = true) _ _ Hperm)),
    (Permutation_length
       (filter_Permutation
          (λ color, in_list color cool_colors = true) _ _ Hperm)).
Qed.

Lemma color_temperature_ignores_others_witness :
  _calculate_color_temperature ["black"; "red"; "white"; "blue"; "orange"]
  = _calculate_color_temperature ["orange"; "blue"; "red"].
Proof.
  apply (color_temperature_ignores_others
           ["black"; "red"; "white"; "blue"; "orange"]
           ["orange"; "blue"; "red"]).
  change (["red"; "blue"; "orange"] ≡ₚ ["orange"; "blue"; "red"]).
  symmetry. apply (reverse_Permutation ["red"; "blue"; "orange"]).
Defined.

End SchemeAndTemperature.

(** ** Categorization and assembly *)

Section Categorization.

Lemma categorize_step_slot (slots : Categorized) (item : ClothingItem) :
  categorize_step slots item
  = {| tops := tops slots ++ (if decide (slot_of item = Tops) then [item]
                              else []);
       bottoms := bottoms slots
                  ++ (if decide (slot_of item = Bottoms) then [item] else []);
       outerwear := outerwear slots
                    ++ (if decide (slot_of item = Outerwear) then [item]
                        else []);
       footwear := footwear slots
                   ++ (if decide (slot_of item = Footwear) then [item]
                       else []);
       accessories := accessories slots
                      ++ (if decide (slot_of item = Accessories) then [item]
                          else []) |}.
Proof.
  unfold categorize_step, slot_of. destruct slots.
  repeat case_match; simpl; by rewrite ?app_nil_r.
Qed.

(** Each slot holds, in their original order, the items classified to
    it. *)
Lemma categorize_filter (items : list ClothingItem) :
  _categorize_items items
  = {| tops := filter (λ item, slot_of item = Tops) items;
       bottoms := filter (λ item, slot_of item = Bottoms) items;
       outerwear := filter (λ item, slot_of item = Outerwear) items;
       footwear := filter (λ item, slot_of item = Footwear) items;
       accessories := filter (λ item, slot_of item = Accessories) items |}.
Proof.
  unfold _categorize_items.
  induction items as [|item items IH] using rev_ind; [done|].
  rewrite foldl_snoc, IH, categorize_step_slot, !filter_app. simpl.
  f_equal; f_equal; rewrite filter_cons, filter_nil; by case_decide.
Qed.

Lemma five_way_partition (items : list ClothingItem) :
  filter (λ item, slot_of item = Tops) items
  ++ filter (λ item, slot_of item = Bottoms) items
  ++ filter (λ item, slot_of item = Outerwear) items
  ++ filter (λ item, slot_of item = Footwear) items
  ++ filter (λ item, slot_of item = Accessories) items
  ≡ₚ items.
Proof.
  induction items as [|item items IH]; [done|].
  rewrite !filter_cons.
  destruct (slot_of item); repeat case_decide; try done; simpl.
  - by rewrite IH.
  - rewrite <- Permutation_middle. by rewrite IH.
  - rewrite !(app_assoc _ _ (item :: _)), <- Permutation_middle.
    rewrite <- !app_assoc. by rewrite IH.
  - rewrite !(app_assoc _ _ (item :: _)), <- Permutation_middle.
    rewrite <- !app_assoc. by rewrite IH.
  - rewrite !(app_assoc _ _ (item :: _)), <- Permutation_middle.
    rewrite <- !app_assoc. by rewrite IH.
Qed.

Lemma categorize_is_partition_aux (items : list ClothingItem) :
  tops (_categorize_items items) `sublist_of` items
  ∧ bottoms (_categorize_items items) `sublist_of` items
  ∧ outerwear (_categorize_items items) `sublist_of` items
  ∧ footwear (_categorize_items items) `sublist_of` items
  ∧ accessories (_categorize_items items) `sublist_of` items.
Proof.
  rewrite categorize_filter. simpl. split_and!; apply sublist_filter.
Qed.

(** X10: categorization is a partition of the item list: the five slots
    together hold exactly the items of the list, each slot keeps them in
    their original order, and an item whose category is missing or empty
    goes to accessories. *)
Theorem categorize_is_partition (items : list ClothingItem) :
  let slots := _categorize_items items in
  tops slots ++ bottoms slots ++ outerwear slots ++ footwear slots
    ++ accessories slots ≡ₚ items
  ∧ Forall (λ slot_items, slot_items `sublist_of` items)
      [tops slots; bottoms slots; outerwear slots; footwear slots;
       accessories slots]
  ∧ ∀ item, item ∈ items →
            category item = None ∨ category item = Some "" →
            item ∈ accessories slots.
Proof.
  intros slots. unfold slots. rewrite categorize_filter. simpl.
  split; [apply five_way_partition|]. split.
  - repeat constructor; apply sublist_filter.
  - intros item Hin Hcat. apply list_elem_of_filter. split; [|done].
    unfold slot_of. by destruct Hcat as [-> | ->]; vm_compute.
Qed.

Lemma categorize_is_partition_witness :
  plain_item "9" "" "red"
    ∈ accessories (_categorize_items
                     [plain_item "1" "shirt" "blue"; plain_item "9" "" "red"]).
Proof.
  refine (proj2 (proj2 (categorize_is_partition
            [plain_item "1" "shirt" "blue"; plain_item "9" "" "red"]))
            (plain_item "9" "" "red") _ _).
  - apply list_elem_of_further, list_elem_of_here.
  - by right.
Defined.

Lemma top_is_no_dress (item : ClothingItem) :
  slot_of item = Tops → any_dress [item] = Ok false.
Proof.
  unfold slot_of. simpl.
  destruct (category item) as [c|];
    [|intros Hslot; vm_compute in Hslot; discriminate].
  destruct (bool_decide (c ≠ ""));
    [|intros Hslot; vm_compute in Hslot; discriminate].
  case_bool_decide as Hdress; [|done].
  rewrite Hdress. intros Hslot. vm_compute in Hslot. discriminate.
Qed.

Lemma build_without_dress (slots : Categorized) (mood occasion : string) :
  (∀ top, head (tops slots) = Some top → any_dress [top] = Ok false) →
  _build_complete_outfit slots mood occasion
  = Ok (slot_heads slots occasion
        ++ if bool_decide (length (slot_heads slots occasion) < 4)%nat
           then take 1 (accessories slots) else []).
Proof.
  destruct slots as [t b o f a]. unfold slot_heads. simpl. intros Hdress.
  unfold _build_complete_outfit. simpl.
  destruct t as [|top t].
  - destruct b, o, f, a, (in_list occasion dress_up_occasions); simpl;
      repeat case_bool_decide; simpl in *; try lia; reflexivity.
  - specialize (Hdress top eq_refl). simpl in Hdress.
    destruct b, o, f, a, (in_list occasion dress_up_occasions); simpl;
      try rewrite Hdress; simpl;
      repeat case_bool_decide; simpl in *; try lia; reflexivity.
Qed.

Lemma assembled_from_slot_heads (items : list ClothingItem)
    (mood occasion : string) :
  let slots := _categorize_items items in
  let outfit :=
    slot_heads slots occasion
    ++ if bool_decide (length (slot_heads slots occasion) < 4)%nat
       then take 1 (accessories slots) else [] in
  _build_complete_outfit slots mood occasion = Ok outfit
  ∧ Forall (λ item, item ∈ items) outfit
  ∧ (length outfit ≤ 4)%nat.
Proof.
  intros slots outfit. split_and!.
  - apply build_without_dress. intros top Htop. apply top_is_no_dress.
    unfold slots in Htop. rewrite categorize_filter in Htop. simpl in Htop.
    apply head_Some_elem_of, list_elem_of_filter in Htop. tauto.
  - assert (∀ slot_items : list ClothingItem,
              slot_items `sublist_of` items →
              Forall (λ item, item ∈ items) (take 1 slot_items)) as Htake.
    { intros slot_items Hsub. apply Forall_forall. intros item Hin.
      apply subseteq_take in Hin. by eapply elem_of_sublist. }
    destruct (categorize_is_partition_aux items) as (Ht & Hb & Ho & Hf & Ha).
    unfold outfit, slot_heads. fold slots.
    rewrite !Forall_app. split_and!; try by apply Htake.
    + case_match; [by apply Htake|constructor].
    + case_bool_decide; [by apply Htake|constructor].
  - unfold outfit. rewrite length_app.
    case_bool_decide as Hfew; [rewrite length_take; lia|].
    unfold slot_heads in *. revert Hfew. rewrite !length_app.
    case_match; rewrite ?length_take; cbn [length]; lia.
Qed.

(** X11: on the slots that [_categorize_items] makes, the assembly never
    raises and its guard on dresses never fires: the outfit is the first
    top, the first bottom, the first outerwear item when the occasion is
    work, formal or date, and the first footwear item, each when its slot
    is not empty, followed by the first accessory when fewer than four
    items were taken; and every item of the outfit is an item of the
    list. *)
Theorem assembly_of_categorized_items (items : list ClothingItem)
    (mood occasion : string) :
  let slots := _categorize_items items in
  let outfit :=
    slot_heads slots occasion
    ++ if bool_decide (length (slot_heads slots occasion) < 4)%nat
       then take 1 (accessories slots) else [] in
  _build_complete_outfit slots mood occasion = Ok outfit
  ∧ Forall (λ item, item ∈ items) outfit.
Proof.
  intros slots outfit.
  destruct (assembled_from_slot_heads items mood occasion) as (? & ? & _).
  done.
Qed.

Lemma assembled_submseteq (items : list ClothingItem) (occasion : string) :
  let slots := _categorize_items items in
  slot_heads slots occasion
  ++ (if bool_decide (length (slot_heads slots occasion) < 4)%nat
      then take 1 (accessories slots) else []) ⊆+ items.
Proof.
  intros slots.
  assert (∀ (b : bool) (l : list ClothingItem),
            (if b then take 1 l else []) ⊆+ l) as Hif.
  { intros [] l; [apply sublist_submseteq, sublist_take
                 |apply submseteq_nil_l]. }
  assert (∀ l : list ClothingItem, take 1 l ⊆+ l) as Htake.
  { intros l. apply sublist_submseteq, sublist_take. }
  etrans; [|by rewrite <- (five_way_partition items)].
  unfold slots, slot_heads. rewrite categorize_filter. cbn [tops bottoms
    outerwear footwear accessories]. rewrite <- !app_assoc.
  repeat apply submseteq_app; auto.
Qed.

(** The items [_create_outfit_recommendation] selects from a non-empty
    filtered list. *)
Lemma select_outfit_items_spec (current_items : list ClothingItem)
    (mood occasion : string) :
  current_items ≠ [] →
  ∃ chosen,
    select_outfit_items current_items mood occasion = Ok chosen
    ∧ (1 ≤ length chosen ≤ 4)%nat
    ∧ chosen ⊆+ current_items.
Proof.
  intros Hne.
  destruct (assembled_from_slot_heads current_items mood occasion)
    as (Hbuild & _ & Hlen).
  pose proof (assembled_submseteq current_items occasion) as Hsub.
  unfold select_outfit_items. rewrite Hbuild. simpl in *.
  destruct (slot_heads _ _ ++ _) as [|item outfit] eqn:Houtfit.
  - rewrite slice_first_three. eexists. split; [reflexivity|]. split.
    + destruct current_items as [|x [|y [|z rest]]]; simpl; try done; lia.
    + apply sublist_submseteq, sublist_take.
  - eexists. split; [reflexivity|]. split; [simpl in *; lia|done].
Qed.

End Categorization.

(** ** The filter chain as a whole *)

Section FilterChain.

(** The shape shared by the occasion and mood filters on a known key. *)
Lemma fail_soft_select {A} (keep : A → bool) (items : list A) :
  let result :=
    match filter (λ x, keep x = true) items with
    | [] => items
    | _ :: _ => filter (λ x, keep x = true) items
    end in
  result `sublist_of` items
  ∧ match filter (λ x, keep x = true) result with
    | [] => result
    | _ :: _ => filter (λ x, keep x = true) result
    end = result.
Proof.
  simpl. destruct (filter (λ x, keep x = true) items) as [|x kept] eqn:Hkept.
  - split; [done|]. by rewrite Hkept.
  - rewrite <- Hkept. split; [apply sublist_filter|].
    by rewrite list_filter_filter_l, Hkept by done.
Qed.

Lemma occasion_and_mood_filters_select_aux (items : list ClothingItem)
    (key : string) :
  _filter_by_occasion items key `sublist_of` items
  ∧ _filter_by_mood items key `sublist_of` items.
Proof.
  unfold _filter_by_occasion, _filter_by_mood.
  destruct (occasion_requirements !! key) as [requirements|],
    (mood_style_mapping !! key) as [style|];
    rewrite ?occasion_loop, ?mood_loop; split; try done.
  all: first [ apply (fail_soft_select (occasion_keeps requirements) items)
             | apply (fail_soft_select (mood_keeps style) items) ].
Qed.

(** X12: the occasion filter and the mood filter return a subsequence of
    their input, so they neither invent, repeat nor reorder items, and
    applying either of them a second time with the same key changes
    nothing. *)
Theorem occasion_and_mood_filters_select (items : list ClothingItem)
    (key : string) :
  _filter_by_occasion items key `sublist_of` items
  ∧ _filter_by_occasion (_filter_by_occasion items key) key
    = _filter_by_occasion items key
  ∧ _filter_by_mood items key `sublist_of` items
  ∧ _filter_by_mood (_filter_by_mood items key) key
    = _filter_by_mood items key.
Proof.
  unfold _filter_by_occasion, _filter_by_mood.
  destruct (occasion_requirements !! key) as [requirements|],
    (mood_style_mapping !! key) as [style|];
    rewrite ?occasion_loop, ?mood_loop.
  - pose proof (fail_soft_select (occasion_keeps requirements) items).
    pose proof (fail_soft_select (mood_keeps style) items). naive_solver.
  - pose proof (fail_soft_select (occasion_keeps requirements) items).
    naive_solver.
  - pose proof (fail_soft_select (mood_keeps style) items). naive_solver.
  - done.
Qed.

Lemma preferred_split (adjustments : adjustment)
    (items : list ClothingItem) :
  filter (λ item, preferred adjustments item = true) items
  ++ filter (λ item, preferred adjustments item = false) items ≡ₚ items.
Proof.
  induction items as [|item items IH]; [done|].
  destruct (preferred adjustments item) eqn:Hp.
  - rewrite (filter_cons_True _ item), (filter_cons_False _ item)
      by congruence.
    simpl. by rewrite IH.
  - rewrite (filter_cons_False _ item), (filter_cons_True _ item)
      by congruence.
    rewrite <- Permutation_middle. by rewrite IH.
Qed.

Lemma weather_kept_submseteq (adjustments : adjustment)
    (items : list ClothingItem) :
  weather_kept adjustments items ⊆+ items.
Proof.
  unfold weather_kept. rewrite reverse_Permutation, preferred_split.
  apply sublist_submseteq, sublist_filter.
Qed.

Lemma weather_filter_submseteq (items : list ClothingItem)
    (weather : option string) :
  _filter_by_weather items weather ⊆+ items.
Proof.
  unfold _filter_by_weather.
  destruct (weather_adjustments !! weather_condition weather)
    as [adjustments|]; [|done].
  destruct (neutral adjustments) as [[]|]; try done.
  all: rewrite weather_loop.
  all: pose proof (weather_kept_submseteq adjustments items).
  all: by destruct (weather_kept adjustments items).
Qed.

Lemma apply_filters_submseteq (clothing_items : list ClothingItem)
    (mood occasion : string) (weather : option string) :
  apply_filters clothing_items mood occasion weather ⊆+ clothing_items.
Proof.
  unfold apply_filters.
  set (after_occasion :=
         match _filter_by_occasion clothing_items occasion with
         | [] => clothing_items
         | _ :: _ => _filter_by_occasion clothing_items occasion
         end).
  assert (after_occasion ⊆+ clothing_items) as Hocc.
  { subst after_occasion.
    pose proof (proj1 (occasion_and_mood_filters_select_aux
                         clothing_items occasion)) as Hsub.
    destruct (_filter_by_occasion clothing_items occasion); [done|].
    by apply sublist_submseteq. }
  set (after_mood :=
         match _filter_by_mood after_occasion mood with
         | [] => after_occasion
         | _ :: _ => _filter_by_mood after_occasion mood
         end).
  assert (after_mood ⊆+ clothing_items) as Hmood.
  { subst after_mood.
    pose proof (proj2 (occasion_and_mood_filters_select_aux
                         after_occasion mood)) as Hsub.
    destruct (_filter_by_mood after_occasion mood); [done|].
    etrans; [by apply sublist_submseteq|done]. }
  pose proof (weather_filter_submseteq after_mood weather) as Hweather.
  destruct (_filter_by_weather after_mood weather) as [|item rest].
  - by destruct after_mood.
  - by etrans.
Qed.

(** X13: whatever the mood, occasion and weather, the filter chain
    returns items of the collection it was given, none of them more often
    than the collection holds it; and it returns at least one item when
    the collection is not empty. *)
Theorem filter_chain_keeps_items (clothing_items : list ClothingItem)
    (mood occasion : string) (weather : option string) :
  apply_filters clothing_items mood occasion weather ⊆+ clothing_items
  ∧ (clothing_items ≠ [] →
     apply_filters clothing_items mood occasion weather ≠ []).
Proof.
  split.
  - apply apply_filters_submseteq.
  - intros Hne. unfold apply_filters. by case_match.
Qed.

Lemma filter_chain_keeps_items_witness :
  apply_filters [plain_item "1" "coat" "red"] "relaxed" "formal" (Some "hot")
  ≠ [].
Proof.
  refine (proj2 (filter_chain_keeps_items
                   [plain_item "1" "coat" "red"] "relaxed" "formal"
                   (Some "hot")) _).
  discriminate.
Defined.

End FilterChain.

(** ** The candidates *)

Section Candidates.

Lemma read_condition_raises (weather : weather_arg) :
  read_condition weather = Raise ↔ condition_not_a_string weather.
Proof.
  split.
  - destruct weather as [|[[]|]]; try done.
    all: intros _; eexists; split; [reflexivity|done].
  - intros ([] & -> & Hvalue); [done..|]. by destruct (Hvalue s).
Qed.

(** On a weather dictionary whose condition is absent or a string, the
    function is [_create_outfit_recommendation] on that condition. *)
Lemma create_outfit_dict_read (clothing_items : list ClothingItem)
    (mood occasion : string) (weather : weather_arg)
    (condition : option string) :
  read_condition weather = Ok condition →
  _create_outfit_recommendation_dict clothing_items mood occasion weather
  = _create_outfit_recommendation clothing_items mood occasion condition.
Proof.
  intros Hread. destruct clothing_items as [|item rest]; [done|].
  unfold _create_outfit_recommendation_dict, apply_filters_dict,
    _filter_by_weather_dict.
  rewrite Hread. reflexivity.
Qed.

Lemma create_outfit_dict_raises (clothing_items : list ClothingItem)
    (mood occasion : string) (weather : weather_arg) :
  read_condition weather = Raise →
  _create_outfit_recommendation_dict clothing_items mood occasion weather
  = None.
Proof.
  intros Hread. destruct clothing_items as [|item rest]; [done|].
  unfold _create_outfit_recommendation_dict, apply_filters_dict,
    _filter_by_weather_dict.
  rewrite Hread. reflexivity.
Qed.

(** X14: [_create_outfit_recommendation] returns nothing exactly when
    the collection is empty or the weather dictionary holds a condition
    that is no string, on which the weather filter raises. Otherwise the
    candidate shows between one and four items chosen from the
    collection, none more often than the collection holds it; its
    confidence is the confidence score of those views; it records the
    mood and the occasion, and carries neither a method tag nor a final
    score yet. *)
Theorem outfit_candidate_shape (clothing_items : list ClothingItem)
    (mood occasion : string) (weather : weather_arg) :
  match _create_outfit_recommendation_dict clothing_items mood occasion
          weather
  with
  | None => clothing_items = [] ∨ condition_not_a_string weather
  | Some rec =>
      ¬ condition_not_a_string weather
      ∧ ∃ chosen,
          chosen ⊆+ clothing_items
          ∧ (1 ≤ length chosen ≤ 4)%nat
          ∧ items rec = Some (item_view <$> chosen)
          ∧ confidence_score rec
            = Some (_calculate_confidence_score (item_view <$> chosen)
                      mood occasion)
          ∧ Engine.mood rec = mood
          ∧ Engine.occasion rec = occasion
          ∧ recommendation_method rec = None
          ∧ final_score rec = None
  end.
Proof.
  destruct (read_condition weather) as [condition|] eqn:Hread.
  2:{ rewrite create_outfit_dict_raises by done.
      right. by apply read_condition_raises. }
  rewrite (create_outfit_dict_read _ _ _ _ condition) by done.
  assert (¬ condition_not_a_string weather) as Hstring.
  { rewrite <- read_condition_raises. congruence. }
  destruct (decide (clothing_items = [])) as [->|Hne]; [by left|].
  rewrite create_outfit_unfold by done.
  destruct (select_outfit_items_spec
              (apply_filters clothing_items mood occasion condition)
              mood occasion) as (chosen & -> & Hlen & Hsub).
  { by apply apply_filters_nonempty. }
  destruct chosen as [|item chosen]; [simpl in Hlen; lia|].
  rewrite fmap_cons. split; [done|].
  exists (item :: chosen). rewrite fmap_cons.
  split_and!; try done; try (simpl in Hlen |- *; lia).
  etrans; [exact Hsub|apply apply_filters_submseteq].
Qed.

Lemma outfit_candidate_shape_witness :
  ∃ chosen,
    chosen ⊆+ [plain_item "1" "shirt" "blue"]
    ∧ (1 ≤ length chosen ≤ 4)%nat.
Proof.
  pose proof (outfit_candidate_shape [plain_item "1" "shirt" "blue"]
                "relaxed" "casual" (WeatherEntry (Some (PStr "hot"))))
    as Hshape.
  destruct (_create_outfit_recommendation_dict _ _ _ _) as [rec|] eqn:Hrec.
  - destruct Hshape as (_ & chosen & Hsub & Hlen & _). by exists chosen.
  - vm_compute in Hrec. discriminate Hrec.
Defined.

Lemma lower_ascii_idemp (a : Ascii.ascii) :
  lower_ascii (lower_ascii a) = lower_ascii a.
Proof. by destruct a as [[] [] [] [] [] [] [] []]. Qed.

Lemma lower_idemp (s : string) : lower (lower s) = lower s.
Proof.
  induction s as [|a s IH]; [done|]. simpl.
  by rewrite lower_ascii_idemp, IH.
Qed.

Lemma is_neutral_lower (color : string) :
  is_neutral (lower color) = is_neutral color.
Proof. unfold is_neutral. by rewrite lower_idemp. Qed.

Lemma neutral_count_lower (colors : list string) :
  length (filter is_neutral (lower <$> colors))
  = length (filter is_neutral colors).
Proof.
  induction colors as [|color colors IH]; [done|].
  rewrite fmap_cons.
  destruct (is_neutral color) eqn:Hcolor.
  - rewrite !filter_cons_True
      by (rewrite ?is_neutral_lower, Hcolor; exact I).
    simpl. by rewrite IH.
  - rewrite !filter_cons_False
      by (rewrite ?is_neutral_lower, Hcolor; exact id).
    done.
Qed.

Lemma colors_coordinate_counts (colors : list string) :
  colors ≠ [] →
  _colors_coordinate colors
  = if Z.of_nat (length (filter is_neutral colors))
       =? Z.of_nat (length colors)
    then true
    else Z.of_nat (length colors)
         - Z.of_nat (length (filter is_neutral colors)) <=? 1.
Proof. by destruct colors. Qed.

Lemma colors_coordinate_lower (colors : list string) :
  _colors_coordinate (lower <$> colors) = _colors_coordinate colors.
Proof.
  destruct (decide (colors = [])) as [->|Hne]; [done|].
  rewrite !colors_coordinate_counts; [|done|by destruct colors].
  by rewrite neutral_count_lower, length_fmap.
Qed.

(** X15: when no item has the empty string for a color, the color
    harmony flag of [_assess_color_harmony] is the coordination test that
    [_calculate_confidence_score] applies to the colors of the same
    items. *)
Theorem harmony_flag_is_coordination (outfit_items : list ItemDict) :
  Forall (λ item, d_color item ≠ "") outfit_items →
  _assess_color_harmony outfit_items
  = _colors_coordinate (d_color <$> outfit_items).
Proof.
  intros Hcolors. destruct outfit_items as [|item rest]; [done|].
  unfold _assess_color_harmony.
  assert (filter (λ item, bool_decide (d_color item ≠ "")) (item :: rest)
          = item :: rest) as ->.
  { induction Hcolors as [|x l Hx Hl IH]; [done|].
    rewrite filter_cons_True by by apply bool_decide_pack.
    by rewrite IH. }
  rewrite (list_fmap_compose d_color lower).
  apply colors_coordinate_lower.
Qed.

Lemma harmony_flag_is_coordination_witness :
  _assess_color_harmony (item_view <$> [plain_item "1" "shirt" "Red";
                                        plain_item "2" "jeans" "blue"])
  = _colors_coordinate
      (d_color <$> (item_view <$> [plain_item "1" "shirt" "Red";
                                   plain_item "2" "jeans" "blue"])).
Proof.
  apply harmony_flag_is_coordination.
  repeat constructor; by vm_compute.
Defined.

End Candidates.
